(** * Sentinel: the self-healing temporal knowledge graph

    A shallow embedding of the question-to-query helper
    ([sentinel_service/query_engine.py]), of the ingest handler of the HTTP
    facade ([sentinel_platform/api/main.py]) and of the temporal graph
    store and orchestrator they sit on, with the properties the
    specification states about them.

    Python strings are embedded as [string]; the character classes below
    are Python's on the ASCII range (code points below 128), which is the
    range the embedding covers. *)

From stdpp Require Import base gmap list strings sorting pretty.
From Stdlib Require Import Ascii ZArith Lia.
From Stdlib Require QArith_base.

(** ** Python string primitives *)

Module Py.

Definition ord (c : ascii) : Z := Z.of_N (Ascii.N_of_ascii c).

Definition chr (z : Z) : ascii := Ascii.ascii_of_N (Z.to_N z).

Definition between (lo hi : Z) (c : ascii) : bool :=
  (lo <=? ord c)%Z && (ord c <=? hi)%Z.

(** [str.isspace] on one character: TAB, LF, VT, FF, CR, the four
    separators FS, GS, RS, US, and the space. *)
Definition c_isspace (c : ascii) : bool :=
  between 9 13 c || between 28 31 c || (ord c =? 32)%Z.

Definition c_isupper (c : ascii) : bool := between 65 90 c.

Definition c_islower (c : ascii) : bool := between 97 122 c.

Definition c_isdigit (c : ascii) : bool := between 48 57 c.

(** The class [\w] of [re]: letters, digits and the underscore. *)
Definition c_isword (c : ascii) : bool :=
  c_isupper c || c_islower c || c_isdigit c || (ord c =? 95)%Z.

Definition c_lower (c : ascii) : ascii :=
  if c_isupper c then chr (ord c + 32) else c.

Fixpoint str_filter (p : ascii -> bool) (s : string) : string :=
  match s with
  | EmptyString => EmptyString
  | String c r => if p c then String c (str_filter p r) else str_filter p r
  end.

Fixpoint str_map (f : ascii -> ascii) (s : string) : string :=
  match s with
  | EmptyString => EmptyString
  | String c r => String (f c) (str_map f r)
  end.

Fixpoint str_exists (p : ascii -> bool) (s : string) : bool :=
  match s with
  | EmptyString => false
  | String c r => p c || str_exists p r
  end.

(** [s.lower()] *)
Definition lower (s : string) : string := str_map c_lower s.

(** [s.isupper()]: at least one cased character and no lowercase one. *)
Definition isupper (s : string) : bool :=
  str_exists c_isupper s && negb (str_exists c_islower s).

(** [s[0].isupper()] for a non-empty [s]. *)
Definition first_isupper (s : string) : bool :=
  match s with
  | EmptyString => false
  | String c _ => c_isupper c
  end.

(** [bool(s)]: a string is truthy when it is not empty. *)
Definition truthy (s : string) : bool :=
  match s with
  | EmptyString => false
  | String _ _ => true
  end.

(** [s.split()]: the maximal runs of non-whitespace characters; [cur] is
    the run being read. *)
Fixpoint split_from (cur : string) (s : string) : list string :=
  match s with
  | EmptyString => if truthy cur then [cur] else []
  | String c r =>
      if c_isspace c
      then (if truthy cur then cur :: split_from EmptyString r
            else split_from EmptyString r)
      else split_from (cur +:+ String c EmptyString) r
  end.

Definition split (s : string) : list string := split_from EmptyString s.

(** [sep.join(l)] *)
Fixpoint join (sep : string) (l : list string) : string :=
  match l with
  | [] => EmptyString
  | [x] => x
  | x :: r => x +:+ sep +:+ join sep r
  end.

(** [s.startswith(p)] *)
Fixpoint startswith (p s : string) : bool :=
  match p, s with
  | EmptyString, _ => true
  | String a p', String b s' => bool_decide (a = b) && startswith p' s'
  | String _ _, EmptyString => false
  end.

(** [needle in s] on strings. *)
Fixpoint contains (needle s : string) : bool :=
  startswith needle s ||
  match s with
  | EmptyString => false
  | String _ r => contains needle r
  end.

(** [s.replace(old, new)] for a non-empty [old]: occurrences are replaced
    from the left and do not overlap; [skip] counts the characters of a
    matched occurrence still to be dropped. *)
Fixpoint replace_from (old new : string) (skip : nat) (s : string) : string :=
  match s with
  | EmptyString => EmptyString
  | String c r =>
      match skip with
      | S k => replace_from old new k r
      | O =>
          if startswith old s
          then new +:+ replace_from old new (Nat.pred (String.length old)) r
          else String c (replace_from old new O r)
      end
  end.

Definition replace (old new s : string) : string := replace_from old new O s.

(** [re.sub(r'[^\w\s]', '', s)] *)
Definition strip_nonword (s : string) : string :=
  str_filter (fun c => c_isword c || c_isspace c) s.

(** The line feed, to assemble multi-line literals. *)
Definition nl : string := String (chr 10) EmptyString.

Definition backslash : string := String (chr 92) EmptyString.

Definition dquote : ascii := chr 34.

Definition squote : ascii := chr 39.

(** [re.escape(s)]: a backslash before each of the characters
    [()[]{}?*+-|^$\.&~#], the space, TAB, LF, CR, VT and FF. *)
Definition re_special (c : ascii) : bool :=
  bool_decide (ord c ∈ [40; 41; 91; 93; 123; 125; 63; 42; 43; 45; 124; 94; 36;
                        92; 46; 38; 126; 35; 32; 9; 10; 13; 11; 12]%Z).

Fixpoint re_escape (s : string) : string :=
  match s with
  | EmptyString => EmptyString
  | String c r =>
      if re_special c then backslash +:+ String c (re_escape r)
      else String c (re_escape r)
  end.

(** *** Values

    The values a query record or a result dictionary holds: [None], a
    string, a list, a dictionary (in insertion order), or a number or
    temporal value, which is kept as its type's name with its [str()] and
    [repr()] texts. *)
#[warnings="-register-all"] Inductive pyval : Type :=
  | VNone
  | VStr (s : string)
  | VOpaque (type_name str_text repr_text : string)
  | VList (l : list pyval)
  | VDict (d : list (string * pyval)).

(** The integer [n] written as a literal in the source. *)
Definition VInt (text : string) : pyval := VOpaque "int" text text.

Definition hex_digit (n : Z) : ascii :=
  if (n <? 10)%Z then chr (48 + n) else chr (87 + n).

(** One character of [repr(s)], for the quote character [q] in use. *)
Definition repr_char (q c : ascii) : string :=
  if bool_decide (c = q) || (ord c =? 92)%Z then backslash +:+ String c EmptyString
  else if (ord c =? 9)%Z then backslash +:+ "t"
  else if (ord c =? 10)%Z then backslash +:+ "n"
  else if (ord c =? 13)%Z then backslash +:+ "r"
  else if (ord c <? 32)%Z || (ord c =? 127)%Z
       then backslash +:+ "x" +:+
            String (hex_digit (ord c / 16)) (String (hex_digit (ord c mod 16)) EmptyString)
  else String c EmptyString.

Fixpoint repr_chars (q : ascii) (s : string) : string :=
  match s with
  | EmptyString => EmptyString
  | String c r => repr_char q c +:+ repr_chars q r
  end.

(** [repr(s)] of a string: single quotes, unless the string holds a single
    quote and no double quote. *)
Definition repr_str (s : string) : string :=
  let q := if str_exists (fun c => bool_decide (c = squote)) s &&
              negb (str_exists (fun c => bool_decide (c = dquote)) s)
           then dquote else squote in
  String q (repr_chars q s) +:+ String q EmptyString.

Fixpoint py_repr (v : pyval) : string :=
  match v with
  | VNone => "None"
  | VStr s => repr_str s
  | VOpaque _ _ r => r
  | VList l => "[" +:+ join ", " (map py_repr l) +:+ "]"
  | VDict d =>
      "{" +:+ join ", " (map (fun kv => repr_str (fst kv) +:+ ": " +:+ py_repr (snd kv)) d)
      +:+ "}"
  end.

(** [str(v)], which is what an f-string field [{v}] renders. *)
Definition py_str (v : pyval) : string :=
  match v with
  | VStr s => s
  | VOpaque _ t _ => t
  | _ => py_repr v
  end.

Definition type_name (v : pyval) : string :=
  match v with
  | VNone => "NoneType"
  | VStr _ => "str"
  | VOpaque t _ _ => t
  | VList _ => "list"
  | VDict _ => "dict"
  end.

(** *** Exceptions

    A raised exception is kept as its message, [str(e)]; a computation
    that may raise returns [inl e] when it does. *)
Record exn : Type := Exn { exn_msg : string }.

Definition raising (A : Type) : Type := exn + A.

#[global] Instance raising_ret : MRet raising := fun A a => inr a.

Definition raise {A : Type} (msg : string) : raising A := inl (Exn msg).

#[global] Instance raising_bind : MBind raising := fun A B k m =>
  match m with
  | inl e => inl e
  | inr a => k a
  end.

(** [v.lower()]: only a string has the method. *)
Definition method_lower (v : pyval) : raising string :=
  match v with
  | VStr s => mret (lower s)
  | _ => raise ("'" +:+ type_name v +:+ "' object has no attribute 'lower'")
  end.

(** [len(v)] *)
Definition py_len (v : pyval) : raising nat :=
  match v with
  | VStr s => mret (String.length s)
  | VList l => mret (length l)
  | VDict d => mret (length d)
  | _ => raise ("object of type '" +:+ type_name v +:+ "' has no len()")
  end.

(** A record of a query result: its keys with their values, in the order
    of the [RETURN] clause; [record_get r key default] is
    [r.get(key, default)]. *)
Definition record : Type := list (string * pyval).

Fixpoint record_get (r : record) (key : string) (default : pyval) : pyval :=
  match r with
  | [] => default
  | (k, v) :: r' => if bool_decide (k = key) then v else record_get r' key default
  end.

End Py.

(** ** The question-to-query helper: entity extraction *)

Module QueryEngine.

(** The set [question_words] of [_extract_entities_from_question]. *)
Definition question_words : gset string :=
  list_to_set
    ["what"; "who"; "when"; "where"; "why"; "how"; "is"; "are"; "was"; "were";
     "the"; "a"; "an"; "in"; "on"; "at"; "to"; "for"; "of"; "with"; "about";
     "does"; "do"; "did"; "can"; "could"; "would"; "should"; "founded"; "created";
     "made"; "built"; "developed"; "invented"].

(** The test [clean_word[0].isupper() or clean_word.isupper()]. *)
Definition capitalised (clean_word : string) : bool :=
  Py.first_isupper clean_word || Py.isupper clean_word.

(** The test [clean_word.lower() not in question_words]. *)
Definition not_question_word (clean_word : string) : bool :=
  bool_decide (Py.lower clean_word ∉ question_words).

(** The body of [for word in words], on the pair
    [(entities, current_entity)]. *)
Definition entity_step (st : list string * list string) (word : string)
  : list string * list string :=
  let '(entities, current_entity) := st in
  let clean_word := Py.strip_nonword word in
  if negb (Py.truthy clean_word) then st
  else if capitalised clean_word then
    if not_question_word clean_word
    then (entities, current_entity ++ [clean_word])
    else st
  else
    match current_entity with
    | [] => st
    | _ :: _ => (entities ++ [Py.join " " current_entity], [])
    end.

Definition _extract_entities_from_question (question : string) : list string :=
  let words := Py.split question in
  let '(entities, current_entity) := foldl entity_step ([], []) words in
  match current_entity with
  | [] => entities
  | _ :: _ => entities ++ [Py.join " " current_entity]
  end.

(** *** The extraction, described

    What the loop computes, said without the loop: the cleaned, non-empty
    words of the question are cut at each word that is not capitalised;
    within each piece the question words are dropped; the pieces left
    non-empty are the phrases, each joined with spaces. *)

Definition tokens (question : string) : list string :=
  filter (fun w => Py.truthy w = true) (map Py.strip_nonword (Py.split question)).

Definition qualifies (clean_word : string) : bool :=
  capitalised clean_word && not_question_word clean_word.

(** The pieces of [l] between the elements that satisfy [brk]. *)
Fixpoint runs {A : Type} (brk : A -> bool) (l : list A) : list (list A) :=
  match l with
  | [] => [[]]
  | x :: r =>
      if brk x then [] :: runs brk r
      else match runs brk r with
           | g :: gs => (x :: g) :: gs
           | [] => [[x]]
           end
  end.

Definition phrases (question : string) : list (list string) :=
  filter (fun g => g <> [])
         (map (filter (fun w => qualifies w = true))
              (runs (fun w => negb (capitalised w)) (tokens question))).

(** What the function returns from a state [(entities, current_entity)]
    of its loop. *)
Definition finish (st : list string * list string) : list string :=
  match st.2 with
  | [] => st.1
  | _ :: _ => st.1 ++ [Py.join " " st.2]
  end.

(** The pieces of a list of raw words: cleaned, cut and filtered. *)
Definition pieces (ws : list string) : list (list string) :=
  map (filter (fun w => qualifies w = true))
      (runs (fun w => negb (capitalised w))
            (filter (fun w => Py.truthy w = true) (map Py.strip_nonword ws))).

(** The open phrase continues into the first piece of the remaining words. *)
Definition attach (current : list string) (gs : list (list string)) : list (list string) :=
  match gs with
  | [] => [current]
  | g :: gs' => (current ++ g) :: gs'
  end.

(** *** Query generation *)

Definition founder_query (entity_pattern : string) : string :=
  Py.join Py.nl
    [EmptyString;
     "                MATCH path = (target:Entity)-[r]->(person:Entity)";
     "                WHERE r.valid_to IS NULL";
     "                  AND (type(r) =~ '.*FOUND.*' OR type(r) =~ '.*CREAT.*' OR type(r) =~ '.*START.*')";
     "                  AND (target.name =~ '" +:+ entity_pattern +:+ "')";
     "                RETURN person.name AS person,";
     "                       type(r) AS relation,";
     "                       target.name AS company,";
     "                       r.confidence AS confidence,";
     "                       [node in nodes(path) | node.name] AS path_nodes";
     "                LIMIT 1";
     "                "].

Definition about_query (entity_pattern : string) : string :=
  Py.join Py.nl
    [EmptyString;
     "                MATCH path = (source:Entity)-[r]->(target:Entity)";
     "                WHERE r.valid_to IS NULL";
     "                  AND (source.name =~ '" +:+ entity_pattern +:+ "' OR target.name =~ '" +:+ entity_pattern +:+ "')";
     "                RETURN source.name AS source,";
     "                       type(r) AS relation,";
     "                       target.name AS target,";
     "                       r.confidence AS confidence,";
     "                       [node in nodes(path) | node.name] AS path_nodes";
     "                LIMIT 5";
     "                "].

Definition price_query : string :=
  Py.join Py.nl
    [EmptyString;
     "            MATCH path = (product:Entity)-[r]->(price:Entity)";
     "            WHERE r.valid_to IS NULL";
     "              AND (type(r) =~ '.*COST.*' OR type(r) =~ '.*PRICE.*')";
     "            RETURN product.name AS product,";
     "                   price.name AS price,";
     "                   r.confidence AS confidence,";
     "                   r.source_url AS source,";
     "                   [node in nodes(path) | node.name] AS path_nodes";
     "            LIMIT 1";
     "            "].

Definition leader_query : string :=
  Py.join Py.nl
    [EmptyString;
     "            MATCH path = (person:Entity)-[r]->(company:Entity)";
     "            WHERE r.valid_to IS NULL";
     "              AND (type(r) =~ '.*CEO.*' OR type(r) =~ '.*FOUND.*')";
     "            RETURN person.name AS person,";
     "                   type(r) AS relation,";
     "                   company.name AS company,";
     "                   r.confidence AS confidence,";
     "                   [node in nodes(path) | node.name] AS path_nodes";
     "            LIMIT 1";
     "            "].

Definition changed_query : string :=
  Py.join Py.nl
    [EmptyString;
     "            MATCH path = (source:Entity)-[r]->(target:Entity)";
     "            WHERE r.valid_to IS NOT NULL";
     "            RETURN source.name AS source,";
     "                   type(r) AS relation,";
     "                   target.name AS target,";
     "                   r.valid_from AS from_date,";
     "                   r.valid_to AS to_date,";
     "                   [node in nodes(path) | node.name] AS path_nodes";
     "            ORDER BY r.valid_to DESC";
     "            LIMIT 5";
     "            "].

Definition default_query : string :=
  Py.join Py.nl
    [EmptyString;
     "            MATCH path = (source:Entity)-[r]->(target:Entity)";
     "            WHERE r.valid_to IS NULL";
     "            RETURN source.name AS source,";
     "                   type(r) AS relation,";
     "                   target.name AS target,";
     "                   r.confidence AS confidence,";
     "                   [node in nodes(path) | node.name] AS path_nodes";
     "            ORDER BY rand()";
     "            LIMIT 5";
     "            "].


(** ['|'.join([f'(?i).*{re.escape(e)}.*' for e in entities])] *)
Definition entity_pattern_of (entities : list string) : string :=
  Py.join "|" (map (fun e => "(?i).*" +:+ Py.re_escape e +:+ ".*") entities).

Definition generate_cypher_from_question (question : string) : string :=
  let question_lower := Py.lower question in
  let entities := _extract_entities_from_question question in
  let has w := Py.contains w question_lower in
  let fallback :=
    if has "how much" || has "cost" || has "price" then price_query
    else if has "who" && (has "ceo" || has "founder") then leader_query
    else if has "what" && has "changed" then changed_query
    else default_query in
  match entities with
  | _ :: _ =>
      let entity_pattern := entity_pattern_of entities in
      if has "who" && (has "founded" || has "created" || has "started")
      then founder_query entity_pattern
      else if has "what" || has "tell" || has "about"
      then about_query entity_pattern
      else fallback
  | [] => fallback
  end.

(** *** Answers *)

(** [relation.lower().replace('_', ' ')] *)
Definition spaced_lower (relation : Py.pyval) : Py.raising string :=
  r ← Py.method_lower relation; mret (Py.replace "_" " " r).

(** One entry of [changes] in the change-detection branch. *)
Definition change_line (record : Py.record) : Py.raising string :=
  let source := Py.record_get record "source" (Py.VStr "Unknown") in
  let relation := Py.record_get record "relation" (Py.VStr "relates to") in
  let target := Py.record_get record "target" (Py.VStr "Unknown") in
  let to_date := Py.record_get record "to_date" (Py.VStr "recently") in
  rel ← spaced_lower relation;
  mret (Py.py_str source +:+ " " +:+ rel +:+ " " +:+ Py.py_str target +:+
        " (changed " +:+ Py.py_str to_date +:+ ")").

(** [[f(x) for x in l]] for an [f] that may raise. *)
Fixpoint for_each {A B : Type} (f : A -> Py.raising B) (l : list A) : Py.raising (list B) :=
  match l with
  | [] => mret []
  | x :: r => y ← f x; ys ← for_each f r; mret (y :: ys)
  end.

Definition _format_answer (question : string) (records : list Py.record)
  : Py.raising string :=
  match records with
  | [] => mret "I don't have enough information to answer that question."
  | first_record :: _ =>
      let question_lower := Py.lower question in
      let has w := Py.contains w question_lower in
      if has "how much" || has "cost" || has "price" then
        let product := Py.record_get first_record "product" (Py.VStr "Unknown") in
        let price := Py.record_get first_record "price" (Py.VStr "Unknown") in
        mret (Py.py_str product +:+ " costs " +:+ Py.py_str price +:+ ".")
      else if has "who" && (has "ceo" || has "founder" || has "founded") then
        let person := Py.record_get first_record "person" (Py.VStr "Unknown") in
        let relation :=
          Py.record_get first_record "relation" (Py.VStr "is associated with") in
        let company := Py.record_get first_record "company" (Py.VStr "Unknown") in
        relation_clean ← spaced_lower relation;
        let relation_clean :=
          if Py.contains "by" relation_clean
          then Py.replace " by" EmptyString relation_clean
          else relation_clean in
        mret (Py.py_str person +:+ " " +:+ relation_clean +:+ " " +:+
              Py.py_str company +:+ ".")
      else if has "what" && has "changed" then
        changes ← for_each change_line (take 3 records);
        mret ("Recent changes:" +:+ Py.nl +:+
              Py.join Py.nl (map (fun change => "- " +:+ change) changes))
      else
        let source := Py.record_get first_record "source" (Py.VStr "Unknown") in
        let relation := Py.record_get first_record "relation" (Py.VStr "relates to") in
        let target := Py.record_get first_record "target" (Py.VStr "Unknown") in
        rel ← spaced_lower relation;
        mret (Py.py_str source +:+ " " +:+ rel +:+ " " +:+ Py.py_str target +:+ ".")
  end.

(** *** Running a question

    The graph is reached through [self.graph.driver]: opening a session,
    running the query and reading all its records either raises or yields
    the list of records. [session_run] is that behaviour of the graph in
    its current state. *)
Definition session := string -> Py.raising (list Py.record).

(** The record returned when the [try] block raised an exception with
    message [msg]. *)
Definition error_response (msg : string) : gmap string Py.pyval :=
  {[ "answer" := Py.VStr ("Error: " +:+ msg);
     "path" := Py.VList [];
     "results" := Py.VList [] ]}.

(** The record returned when the query matched nothing. *)
Definition no_results_response : gmap string Py.pyval :=
  {[ "answer" := Py.VStr "No results found.";
     "path" := Py.VList [];
     "results" := Py.VList [] ]}.

(** The body of the [try] block of [execute_query_with_path]. The call
    [len(path_nodes)] is the one made for the log entry. *)
Definition try_execute_query (session_run : session) (question : string)
  : Py.raising (gmap string Py.pyval) :=
  let cypher_query := generate_cypher_from_question question in
  records ← session_run cypher_query;
  match records with
  | [] => mret no_results_response
  | first_record :: _ =>
      let path_nodes := Py.record_get first_record "path_nodes" (Py.VList []) in
      answer ← _format_answer question records;
      let results := map Py.VDict records in
      _ ← Py.py_len path_nodes;
      mret {[ "answer" := Py.VStr answer;
              "path" := path_nodes;
              "results" := Py.VList results;
              "cypher_query" := Py.VStr cypher_query ]}
  end.

Definition execute_query_with_path (session_run : session) (question : string)
    (timestamp : option string) : gmap string Py.pyval :=
  match try_execute_query session_run question with
  | inr response => response
  | inl e => error_response (Py.exn_msg e)
  end.

End QueryEngine.

(** ** The HTTP facade: [POST /api/ingest] *)

Module Api.

(** [fastapi.HTTPException(status_code, detail)] *)
Record HTTPException : Type := { status_code : Z; detail : string }.

(** The global [system_status]; [last_update] is the instant whose
    ISO-8601 text the dictionary holds. *)
Record SystemStatus : Type :=
  { state : string; message : string; last_update : Z }.

(** The orchestrator behind [sentinel_agent], over a backend state [B]
    (scraper, extractor and graph store): [process_url] either raises or
    returns its result record, and leaves a new backend state. *)
Record Sentinel (B : Type) : Type :=
  { process_url : string -> B -> Py.raising (gmap string Py.pyval) * B }.

Arguments process_url {B}.

(** What a request can change: the status string and the backend. *)
Record World (B : Type) : Type :=
  { system_status : SystemStatus; backend : B }.

Arguments system_status {B}.
Arguments backend {B}.

(** [update_status(state, message)], at clock reading [now]. *)
Definition update_status {B : Type} (st msg : string) (now : Z) (w : World B) : World B :=
  {| system_status := {| state := st; message := msg; last_update := now |};
     backend := backend w |}.

(** [result.get(key, default)] on a result dictionary. *)
Definition dict_get (d : gmap string Py.pyval) (key : string) (default : Py.pyval)
  : Py.pyval :=
  match d !! key with
  | Some v => v
  | None => default
  end.

(** [ingest_url(request)] with [request.url = url]; [now1] and [now2] are
    the clock readings of the two status updates. The handler raises an
    [HTTPException] ([inl]) or returns the orchestrator's result. *)
Definition ingest_url {B : Type} (sentinel_agent : option (Sentinel B)) (url : string)
    (now1 now2 : Z) (w : World B)
  : (HTTPException + gmap string Py.pyval) * World B :=
  match sentinel_agent with
  | None =>
      (inl {| status_code := 503; detail := "Sentinel agent not initialized" |}, w)
  | Some agent =>
      let w1 := update_status "Processing" ("Processing " +:+ url +:+ "...") now1 w in
      let '(outcome, b2) := process_url agent url (backend w1) in
      let w2 := {| system_status := system_status w1; backend := b2 |} in
      match outcome with
      | inr result =>
          let status := dict_get result "status" Py.VNone in
          let msg :=
            match status with
            | Py.VStr "success" =>
                "Successfully processed " +:+ url +:+ ". Extracted " +:+
                Py.py_str (dict_get result "extracted_nodes" (Py.VInt "0")) +:+ " nodes."
            | Py.VStr "unchanged_verified" =>
                "Content unchanged for " +:+ url +:+ ". Verified existing data."
            | _ =>
                "Processed " +:+ url +:+ " with status: " +:+ Py.py_str status
            end in
          (inr result, update_status "Idle" msg now2 w2)
      | inl e =>
          (inl {| status_code := 500; detail := Py.exn_msg e |},
           update_status "Error" ("Failed: " +:+ Py.exn_msg e) now2 w2)
      end
  end.

End Api.

(** ** SHA-256 (FIPS 180-4), the digest behind the content hashes

    The library function [hashlib.sha256], written out here on byte
    strings as lists of numbers below 256 and 32-bit words as numbers
    below [2^32]. *)

Module Sha256.

Local Open Scope Z_scope.

Definition w32 (x : Z) : Z := x mod 2 ^ 32.

Definition rotr (n x : Z) : Z :=
  Z.lor (Z.shiftr x n) (w32 (Z.shiftl x (32 - n))).

Definition not32 (x : Z) : Z := Z.lxor x 0xffffffff.

Definition Ch (x y z : Z) : Z := Z.lxor (Z.land x y) (Z.land (not32 x) z).

Definition Maj (x y z : Z) : Z :=
  Z.lxor (Z.lxor (Z.land x y) (Z.land x z)) (Z.land y z).

Definition Sigma0 (x : Z) : Z := Z.lxor (Z.lxor (rotr 2 x) (rotr 13 x)) (rotr 22 x).

Definition Sigma1 (x : Z) : Z := Z.lxor (Z.lxor (rotr 6 x) (rotr 11 x)) (rotr 25 x).

Definition sigma0 (x : Z) : Z := Z.lxor (Z.lxor (rotr 7 x) (rotr 18 x)) (Z.shiftr x 3).

Definition sigma1 (x : Z) : Z := Z.lxor (Z.lxor (rotr 17 x) (rotr 19 x)) (Z.shiftr x 10).

(** The first [n] primes, by trial division. *)
Definition is_prime (p : Z) : bool :=
  (1 <? p) && forallb (fun d => negb (p mod Z.of_nat d =? 0)) (seq 2 (Z.to_nat p - 2)).

Definition primes (n : nat) : list Z :=
  take n (filter (fun p => is_prime p = true) (map Z.of_nat (seq 0 400))).

(** The integer cube root of [x], bit by bit from bit 40 down. *)
Definition cube_root (x : Z) : Z :=
  foldl (fun r b => let r' := r + 2 ^ Z.of_nat b in if r' * r' * r' <=? x then r' else r)
        0 (reverse (seq 0 41)).

(** The round constants: the first 32 bits of the fractional parts of the
    cube roots of the first 64 primes. *)
Definition K : list Z :=
  Eval vm_compute in map (fun p => w32 (cube_root (p * 2 ^ 96))) (primes 64).

(** The eight working variables, and the hash value between blocks. *)
Record regs : Type := Regs { ra : Z; rb : Z; rc : Z; rd : Z; re : Z; rf : Z; rg : Z; rh : Z }.

Definition regs_of (ws : list Z) : regs :=
  Regs (ws !!! 0%nat) (ws !!! 1%nat) (ws !!! 2%nat) (ws !!! 3%nat)
       (ws !!! 4%nat) (ws !!! 5%nat) (ws !!! 6%nat) (ws !!! 7%nat).

(** The initial hash value: the first 32 bits of the fractional parts of
    the square roots of the first 8 primes. *)
Definition H0 : regs :=
  Eval vm_compute in regs_of (map (fun p => w32 (Z.sqrt (p * 2 ^ 64))) (primes 8)).

(** The message with its padding: the byte 0x80, zero bytes up to 56
    modulo 64, and the bit length on eight bytes, big-endian. *)
Definition be_bytes (n : nat) (x : Z) : list Z :=
  map (fun i => (x / 256 ^ Z.of_nat i) mod 256) (reverse (seq 0 n)).

Definition pad (msg : list Z) : list Z :=
  let l := Z.of_nat (length msg) in
  msg ++ [0x80] ++ replicate (Z.to_nat ((55 - l) mod 64)) 0 ++ be_bytes 8 (8 * l).

Definition be_word (bytes : list Z) : Z :=
  foldl (fun acc b => acc * 256 + b) 0 bytes.

(** The [i]-th group of [n] elements of [l]. *)
Definition group {A : Type} (n i : nat) (l : list A) : list A :=
  take n (drop (n * i) l).

Definition groups {A : Type} (n : nat) (l : list A) : list (list A) :=
  map (fun i => group n i l) (seq 0 (length l / n)).

(** The message schedule, latest word first: from [W(t-1) .. W(t-16)] at
    the head, the word [W(t)]. *)
Definition next_w (ws : list Z) : Z :=
  w32 (sigma1 (ws !!! 1%nat) + ws !!! 6%nat + sigma0 (ws !!! 14%nat) + ws !!! 15%nat).

Fixpoint extend (n : nat) (ws : list Z) : list Z :=
  match n with
  | O => ws
  | S n' => extend n' (next_w ws :: ws)
  end.

Definition schedule (block : list Z) : list Z :=
  reverse (extend 48 (reverse (map be_word (groups 4 block)))).

Definition round (r : regs) (kw : Z * Z) : regs :=
  let t1 := w32 (rh r + Sigma1 (re r) + Ch (re r) (rf r) (rg r) + fst kw + snd kw) in
  let t2 := w32 (Sigma0 (ra r) + Maj (ra r) (rb r) (rc r)) in
  Regs (w32 (t1 + t2)) (ra r) (rb r) (rc r) (w32 (rd r + t1)) (re r) (rf r) (rg r).

Definition add_regs (x y : regs) : regs :=
  Regs (w32 (ra x + ra y)) (w32 (rb x + rb y)) (w32 (rc x + rc y)) (w32 (rd x + rd y))
       (w32 (re x + re y)) (w32 (rf x + rf y)) (w32 (rg x + rg y)) (w32 (rh x + rh y)).

Definition compress (h : regs) (block : list Z) : regs :=
  add_regs h (foldl round h (zip K (schedule block))).

Definition regs_words (r : regs) : list Z :=
  [ra r; rb r; rc r; rd r; re r; rf r; rg r; rh r].

(** The digest of a byte string, as the 256-bit number whose big-endian
    bytes are the 32 bytes of the hash. *)
Definition digest (msg : list Z) : Z :=
  foldl (fun acc w => acc * 2 ^ 32 + w) 0
        (regs_words (foldl compress H0 (groups 64 (pad msg)))).

Definition hex_digit (n : Z) : ascii :=
  if n <? 10 then Py.chr (48 + n) else Py.chr (87 + n).

(** The [k] low hexadecimal digits of [n], most significant first. *)
Fixpoint hex (k : nat) (n : Z) : string :=
  match k with
  | O => EmptyString
  | S k' => hex k' (n / 16) +:+ String (hex_digit (n mod 16)) EmptyString
  end.

Fixpoint bytes_of (s : string) : list Z :=
  match s with
  | EmptyString => []
  | String c r => Py.ord c :: bytes_of r
  end.

(** [hashlib.sha256(s.encode()).hexdigest()] *)
Definition hexdigest (s : string) : string := hex 64 (digest (bytes_of s)).

End Sha256.

(** ** The data model ([sentinel_core/models.py])

    Instants are microseconds since the epoch, UTC. A property value is a
    string, an integer or a boolean. *)

Module Models.

(** Modelled from the spec: a property value (section 3: strings, numbers,
    booleans); the numbers taken are the integers. *)
Inductive scalar : Type :=
  | SStr (s : string)
  | SInt (n : Z)
  | SBool (b : bool).

(** Modelled from the spec: the entity of a bundle ([GraphNode] of
    sentinel_core/models.py, not in the sources), with the fields the tests
    give it. *)
Record GraphNode : Type :=
  { id : string; label : string; node_properties : gmap string scalar }.

(** Modelled from the spec: the proposed edge of a bundle ([TemporalEdge] of
    sentinel_core/models.py, not in the sources), with the fields the tests
    give it and the confidence of section 3. *)
Record TemporalEdge : Type :=
  { source : string;
    target : string;
    relation : string;
    properties : gmap string scalar;
    valid_from : Z;
    valid_to : option Z;
    confidence : QArith_base.Q }.

(** Modelled from the spec: a bundle ([GraphData] of sentinel_core/models.py,
    not in the sources). *)
Record GraphData : Type :=
  { nodes : list GraphNode; edges : list TemporalEdge }.

(** Modelled from the spec: one character inside a JSON string literal. *)
Definition json_char (c : ascii) : string :=
  let n := Py.ord c in
  if (n =? 34)%Z || (n =? 92)%Z then Py.backslash +:+ String c EmptyString
  else if (n =? 10)%Z then Py.backslash +:+ "n"
  else if (n =? 13)%Z then Py.backslash +:+ "r"
  else if (n =? 9)%Z then Py.backslash +:+ "t"
  else if (n =? 8)%Z then Py.backslash +:+ "b"
  else if (n =? 12)%Z then Py.backslash +:+ "f"
  else if (n <? 32)%Z then Py.backslash +:+ "u00" +:+ Sha256.hex 2 n
  else String c EmptyString.

(** Modelled from the spec: the characters of a JSON string literal. *)
Fixpoint json_chars (s : string) : string :=
  match s with
  | EmptyString => EmptyString
  | String c r => json_char c +:+ json_chars r
  end.

(** Modelled from the spec: a JSON string literal, between double quotes. *)
Definition json_string (s : string) : string :=
  String Py.dquote (json_chars s) +:+ String Py.dquote EmptyString.

(** Modelled from the spec: the JSON text of a property value. *)
Definition json_scalar (v : scalar) : string :=
  match v with
  | SStr s => json_string s
  | SInt n => pretty n
  | SBool true => "true"
  | SBool false => "false"
  end.

(** Modelled from the spec: the order of the keys of a canonical object. *)
Definition key_le (a b : string * scalar) : Prop := String.leb a.1 b.1 = true.

(** Modelled from the spec: the order of the keys is decidable. *)
#[global] Instance key_le_dec : RelDecision key_le.
Proof. intros a b. unfold key_le. apply _. Defined.

(** Modelled from the spec: [canonical_json(properties)] of the edge
    identity (the serialiser of sentinel_core/models.py is not in the
    sources): the JSON object of the map with its keys in ascending order,
    so that equal maps have equal texts. *)
Definition canonical_json (m : gmap string scalar) : string :=
  "{" +:+
  Py.join ", " (map (fun kv => json_string kv.1 +:+ ": " +:+ json_scalar kv.2)
                    (merge_sort key_le (map_to_list m))) +:+
  "}".

(** Modelled from the spec: the text the content hash is taken of. *)
Definition hash_input (e : TemporalEdge) : string :=
  source e +:+ relation e +:+ target e +:+ canonical_json (properties e).

(** Modelled from the spec: [TemporalEdge.compute_hash()]
    (sentinel_core/models.py is not in the sources), the SHA-256 hex digest
    of [source ‖ relation ‖ target ‖ canonical_json(properties)]. *)
Definition compute_hash (e : TemporalEdge) : string :=
  Sha256.hexdigest (hash_input e).

End Models.

(** ** The temporal graph store

    [sentinel_core/graph_store.py] is not among the sources: the store is
    modelled from the specification (section 4.1), as a state that each
    operation transforms at the clock reading [now] it is given. The
    code's names for the operations are [upsert_data],
    [get_graph_snapshot], [find_stale_nodes], [mark_edges_verified],
    [get_document_state] and [update_document_state]. *)

Module GraphStore.

Import Models.

(** Modelled from the spec: an edge as persisted, with its content hash and
    bitemporal fields. *)
Record Edge : Type :=
  { e_hash : string;
    e_source : string;
    e_relation : string;
    e_target : string;
    e_properties : gmap string scalar;
    e_valid_from : Z;
    e_valid_to : option Z;
    e_last_verified : Z;
    e_verification_count : nat;
    e_source_url : string;
    e_confidence : QArith_base.Q }.

(** Modelled from the spec: an entity as persisted, under its [id]
    (section 3). *)
Record Entity : Type :=
  { ent_label : string; ent_properties : gmap string scalar }.

(** Modelled from the spec: the document state kept for a URL
    (section 3). *)
Record DocumentState : Type :=
  { content_hash : string; last_checked : Z }.

(** Modelled from the spec: the three kinds of records the store owns; the
    edges in the order they were created. *)
Record Store : Type :=
  { entities : gmap string Entity;
    edge_log : list Edge;
    documents : gmap string DocumentState }.

(** Modelled from the spec: the counts an upsert returns. *)
Record Stats : Type :=
  { nodes_created : nat;
    nodes_updated : nat;
    edges_created : nat;
    edges_verified : nat;
    edges_invalidated : nat }.

(** Modelled from the spec: the store after [clear_all]. *)
Definition empty_store : Store :=
  {| entities := ∅; edge_log := []; documents := ∅ |}.

(** Modelled from the spec: the counts before anything is counted. *)
Definition no_stats : Stats :=
  {| nodes_created := 0; nodes_updated := 0; edges_created := 0;
     edges_verified := 0; edges_invalidated := 0 |}.

(** Modelled from the spec: a live edge is one whose [valid_to] is unset. *)
Definition is_live (e : Edge) : bool :=
  match e_valid_to e with
  | None => true
  | Some _ => false
  end.

(** Modelled from the spec: the edge joins [s] to [t] with relation [r]. *)
Definition between (s r t : string) (e : Edge) : bool :=
  bool_decide (e_source e = s) && bool_decide (e_relation e = r) &&
  bool_decide (e_target e = t).

(** Modelled from the spec: a live edge between the endpoints. *)
Definition live_between (s r t : string) (e : Edge) : bool :=
  between s r t e && is_live e.

(** Modelled from the spec: the store with its entities replaced. *)
Definition with_entities (ents : gmap string Entity) (st : Store) : Store :=
  {| entities := ents; edge_log := edge_log st; documents := documents st |}.

(** Modelled from the spec: the store with its edge log replaced. *)
Definition with_edges (log : list Edge) (st : Store) : Store :=
  {| entities := entities st; edge_log := log; documents := documents st |}.

(** Modelled from the spec: MERGE of an entity on its [id]: the property
    maps are united, the new values overwriting those of matching keys. *)
Definition merge_node (acc : Stats * Store) (n : GraphNode) : Stats * Store :=
  let '(stats, st) := acc in
  match entities st !! id n with
  | None =>
      ({| nodes_created := S (nodes_created stats);
          nodes_updated := nodes_updated stats;
          edges_created := edges_created stats;
          edges_verified := edges_verified stats;
          edges_invalidated := edges_invalidated stats |},
       with_entities
         (<[id n := {| ent_label := label n; ent_properties := node_properties n |}]>
            (entities st)) st)
  | Some old =>
      ({| nodes_created := nodes_created stats;
          nodes_updated := S (nodes_updated stats);
          edges_created := edges_created stats;
          edges_verified := edges_verified stats;
          edges_invalidated := edges_invalidated stats |},
       with_entities
         (<[id n := {| ent_label := ent_label old;
                       ent_properties := node_properties n ∪ ent_properties old |}]>
            (entities st)) st)
  end.

(** Modelled from the spec: the MERGE-on-write rule: an entity an edge
    refers to exists from then on. *)
Definition ensure_entity (i : string) (ents : gmap string Entity) : gmap string Entity :=
  match ents !! i with
  | Some _ => ents
  | None => <[i := {| ent_label := "Entity"; ent_properties := ∅ |}]> ents
  end.

(** Modelled from the spec: case A on one stored edge. *)
Definition verify (source_url : string) (now : Z) (e : Edge) : Edge :=
  {| e_hash := e_hash e; e_source := e_source e; e_relation := e_relation e;
     e_target := e_target e; e_properties := e_properties e;
     e_valid_from := e_valid_from e; e_valid_to := e_valid_to e;
     e_last_verified := now;
     e_verification_count := S (e_verification_count e);
     e_source_url := source_url;
     e_confidence := e_confidence e |}.

(** Modelled from the spec: closing an edge: [valid_to = now]. *)
Definition close (now : Z) (e : Edge) : Edge :=
  {| e_hash := e_hash e; e_source := e_source e; e_relation := e_relation e;
     e_target := e_target e; e_properties := e_properties e;
     e_valid_from := e_valid_from e; e_valid_to := Some now;
     e_last_verified := e_last_verified e;
     e_verification_count := e_verification_count e;
     e_source_url := e_source_url e;
     e_confidence := e_confidence e |}.

(** Modelled from the spec: the edge created for the proposed edge [p] in
    cases B and C. *)
Definition new_edge (source_url : string) (now : Z) (p : TemporalEdge) : Edge :=
  {| e_hash := compute_hash p; e_source := source p; e_relation := relation p;
     e_target := target p; e_properties := properties p;
     e_valid_from := now; e_valid_to := None;
     e_last_verified := now; e_verification_count := 1;
     e_source_url := source_url; e_confidence := confidence p |}.

(** Modelled from the spec: one proposed edge of a bundle: cases A, B and C
    of the specification. *)
Definition upsert_edge (source_url : string) (now : Z) (acc : Stats * Store)
    (p : TemporalEdge) : Stats * Store :=
  let '(stats, st) := acc in
  let h := compute_hash p in
  let here := live_between (source p) (relation p) (target p) in
  let same e := here e && bool_decide (e_hash e = h) in
  let ents := ensure_entity (target p) (ensure_entity (source p) (entities st)) in
  let live_edges := filter (fun e => here e = true) (edge_log st) in
  if existsb same live_edges then
    ({| nodes_created := nodes_created stats;
        nodes_updated := nodes_updated stats;
        edges_created := edges_created stats;
        edges_verified := S (edges_verified stats);
        edges_invalidated := edges_invalidated stats |},
     with_entities ents
       (with_edges
          (map (fun e => if same e then verify source_url now e else e) (edge_log st))
          st))
  else
    ({| nodes_created := nodes_created stats;
        nodes_updated := nodes_updated stats;
        edges_created := S (edges_created stats);
        edges_verified := edges_verified stats;
        edges_invalidated := edges_invalidated stats + length live_edges |},
     with_entities ents
       (with_edges
          (map (fun e => if here e then close now e else e) (edge_log st) ++
           [new_edge source_url now p])
          st)).

(** Modelled from the spec: [upsert_bundle(bundle, source_url)]
    ([GraphManager.upsert_data], not in the sources): the entities are
    merged, then the proposed edges are applied in arrival order, all at
    the one instant [now]. *)
Definition upsert_bundle (bundle : GraphData) (source_url : string) (now : Z)
    (st : Store) : Stats * Store :=
  foldl (upsert_edge source_url now)
        (foldl merge_node (no_stats, st) (nodes bundle))
        (edges bundle).

(** Modelled from the spec: the edges between the same endpoints with the
    same relation. *)
Definition edges_between (s r t : string) (st : Store) : list Edge :=
  filter (fun e => between s r t e = true) (edge_log st).

(** Modelled from the spec: an edge holds at instant [t] when
    [valid_from ≤ t ∧ (valid_to = ⊥ ∨ valid_to > t)]. *)
Definition valid_at (t : Z) (e : Edge) : bool :=
  (e_valid_from e <=? t)%Z &&
  match e_valid_to e with
  | None => true
  | Some vt => (t <? vt)%Z
  end.

(** Modelled from the spec: a link of a snapshot (section 4.1, return
    format). *)
Record Link : Type :=
  { l_source : string;
    l_target : string;
    l_relation : string;
    l_confidence : QArith_base.Q;
    l_provenance : string;
    l_valid_from : Z;
    l_valid_to : option Z }.

(** Modelled from the spec: a node of a snapshot, weighted by degree. *)
Record SnapshotNode : Type :=
  { sn_id : string; sn_label : string; sn_weight : nat }.

(** Modelled from the spec: what [snapshot_at] returns: nodes, links and
    their counts. *)
Record Snapshot : Type :=
  { snap_nodes : list SnapshotNode;
    links : list Link;
    node_count : nat;
    link_count : nat }.

(** Modelled from the spec: the link a snapshot shows for an edge. *)
Definition link_of (e : Edge) : Link :=
  {| l_source := e_source e; l_target := e_target e; l_relation := e_relation e;
     l_confidence := e_confidence e; l_provenance := e_source_url e;
     l_valid_from := e_valid_from e; l_valid_to := e_valid_to e |}.

(** Modelled from the spec: the endpoints of a list of edges, each once. *)
Definition endpoints (es : list Edge) : list string :=
  remove_dups (flat_map (fun e => [e_source e; e_target e]) es).

(** Modelled from the spec: the number of edge ends at an entity. *)
Definition degree (i : string) (es : list Edge) : nat :=
  length (filter (fun x => x = i) (flat_map (fun e => [e_source e; e_target e]) es)).

(** Modelled from the spec: the edges that hold at [t]. *)
Definition edges_at (t : Z) (st : Store) : list Edge :=
  filter (fun e => valid_at t e = true) (edge_log st).

(** Modelled from the spec: [snapshot_at(t)]
    ([GraphManager.get_graph_snapshot], not in the sources): the edges
    that hold at [t], with the entities at their endpoints weighted by
    degree. *)
Definition snapshot_at (t : Z) (st : Store) : Snapshot :=
  let es := edges_at t st in
  let ns :=
    map (fun i =>
           {| sn_id := i;
              sn_label := match entities st !! i with
                          | Some ent => ent_label ent
                          | None => "Entity"
                          end;
              sn_weight := degree i es |})
        (endpoints es) in
  {| snap_nodes := ns; links := map link_of es;
     node_count := length ns; link_count := length es |}.

(** Modelled from the spec: one day, in microseconds. *)
Definition day : Z := 86400000000.

(** Modelled from the spec: a live edge whose provenance is [url]. *)
Definition live_from (url : string) (e : Edge) : bool :=
  is_live e && bool_decide (e_source_url e = url).

(** Modelled from the spec: [find_stale(days_threshold)]
    ([GraphManager.find_stale_nodes], not in the sources): the distinct
    [source_url]s whose live edges have
    [last_verified < now − days_threshold]; a URL with a fresh live edge is
    not stale. *)
Definition find_stale (days_threshold : Z) (now : Z) (st : Store) : list string :=
  let cutoff := (now - days_threshold * day)%Z in
  let live_edges := filter (fun e => is_live e = true) (edge_log st) in
  filter (fun url =>
            forallb (fun e => (e_last_verified e <? cutoff)%Z)
                    (filter (fun e => live_from url e = true) (edge_log st)) = true)
         (remove_dups (map e_source_url live_edges)).

(** Modelled from the spec: [mark_verified(source_url)]
    ([GraphManager.mark_edges_verified], not in the sources): every live
    edge of the URL gets [last_verified = now] and one more verification;
    the number of edges touched is returned. *)
Definition mark_verified (source_url : string) (now : Z) (st : Store) : nat * Store :=
  (length (filter (fun e => live_from source_url e = true) (edge_log st)),
   with_edges
     (map (fun e => if live_from source_url e then verify source_url now e else e)
          (edge_log st))
     st).

(** Modelled from the spec: [get_document_state(source_url)]. *)
Definition get_document_state (source_url : string) (st : Store) : option string :=
  content_hash <$> documents st !! source_url.

(** Modelled from the spec: [set_document_state(source_url, content_hash)]
    ([GraphManager.update_document_state], not in the sources). *)
Definition set_document_state (source_url hash : string) (now : Z) (st : Store) : Store :=
  {| entities := entities st; edge_log := edge_log st;
     documents := <[source_url := {| content_hash := hash; last_checked := now |}]>
                    (documents st) |}.

(** Modelled from the spec: [invalidate(source, relation, target,
    at_time)] ([GraphManager.invalidate_edge], not in the sources): the live
    edge between the endpoints is closed at [at_time]; the result tells
    whether there was one. *)
Definition invalidate (s r t : string) (at_time : Z) (st : Store) : bool * Store :=
  (existsb (live_between s r t) (edge_log st),
   with_edges
     (map (fun e => if live_between s r t e then close at_time e else e) (edge_log st))
     st).

(** Modelled from the spec: [clear_all()] ([GraphManager.clear_database],
    not in the sources): everything is deleted; the count is that of the
    entities deleted. *)
Definition clear_all (st : Store) : nat * Store :=
  (size (entities st), empty_store).

(** Modelled from the spec: the stores the operations produce from the
    empty one, the clock never running backwards (a single writer,
    section 5); [reachable_by dated now st] has [now] as the latest
    reading of the clock. [invalidate] takes the instant [at_time] from
    its caller; [dated now at_time] tells which instants the callers
    give at clock [now]. *)
Inductive reachable_by (dated : Z -> Z -> Prop) : Z -> Store -> Prop :=
  | reach_empty (now : Z) : reachable_by dated now empty_store
  | reach_later (now now' : Z) (st : Store) :
      reachable_by dated now st -> (now <= now')%Z -> reachable_by dated now' st
  | reach_upsert (now : Z) (st : Store) (bundle : GraphData) (url : string) :
      reachable_by dated now st ->
      reachable_by dated now (upsert_bundle bundle url now st).2
  | reach_verified (now : Z) (st : Store) (url : string) :
      reachable_by dated now st -> reachable_by dated now (mark_verified url now st).2
  | reach_document (now : Z) (st : Store) (url hash : string) :
      reachable_by dated now st ->
      reachable_by dated now (set_document_state url hash now st)
  | reach_invalidate (now : Z) (st : Store) (s r t : string) (at_time : Z) :
      reachable_by dated now st -> dated now at_time ->
      reachable_by dated now (invalidate s r t at_time st).2
  | reach_clear (now : Z) (st : Store) :
      reachable_by dated now st -> reachable_by dated now (clear_all st).2.

(** Modelled from the spec: the stores reached with any instants given
    to [invalidate], and those reached when no closure is dated later
    than the clock. *)
Definition reachable : Z -> Store -> Prop := reachable_by (fun _ _ => True).


End GraphStore.

(** ** The orchestrator

    [sentinel_core/orchestrator.py] is not among the sources:
    [process_url] is modelled from the state machine of the specification
    (section 4.4.1). The scraper and the extractor are the two external
    collaborators; the calls made to them and to the store are recorded,
    in order, next to the store they leave. The store is one whose driver
    answers: the store errors of the taxonomy (section 7) are outside the
    model. *)

Module Orchestrator.

Import Models GraphStore.

(** Modelled from the spec: the collaborators: [scrape_and_hash(url)] fails
    with an error text or yields the content with its hash; [extract(text)]
    yields a bundle (an empty one when extraction fails). *)
Record Components : Type :=
  { scrape_and_hash : string -> string + (string * string);
    extract : string -> GraphData }.

(** Modelled from the spec: the calls [process_url] makes to its
    collaborators and to the store. *)
Inductive Call : Type :=
  | ScrapeAndHash (url : string)
  | GetDocumentState (url : string)
  | MarkVerified (url : string)
  | SetDocumentState (url hash : string)
  | Extract (text : string)
  | UpsertBundle (bundle : GraphData) (url : string).

(** Modelled from the spec: the terminal states with what each returns. *)
Inductive Outcome : Type :=
  | ScrapeFailed (error : string)
  | UnchangedVerified (edges_updated : nat)
  | NoFacts
  | Success (stats : Stats).

(** Modelled from the spec: the record [process_url] returns. *)
Record Result : Type := { url : string; outcome : Outcome }.

(** Modelled from the spec: the [status] field of a result. *)
Definition status (r : Result) : string :=
  match outcome r with
  | ScrapeFailed _ => "scrape_failed"
  | UnchangedVerified _ => "unchanged_verified"
  | NoFacts => "no_facts"
  | Success _ => "success"
  end.

(** Modelled from the spec: the [reason] field of a result, which the
    mocks of tests/test_healing.py read. *)
Definition reason (r : Result) : option string :=
  match outcome r with
  | UnchangedVerified _ => Some "content_unchanged"
  | _ => None
  end.

(** Modelled from the spec: the creation counts a result reports: those
    of the upsert, if one was made. *)
Definition reported (r : Result) : Stats :=
  match outcome r with
  | Success stats => stats
  | _ => no_stats
  end.

(** Modelled from the spec: the extractor returned no node and no edge. *)
Definition is_empty_bundle (b : GraphData) : bool :=
  match nodes b, edges b with
  | [], [] => true
  | _, _ => false
  end.

(** Modelled from the spec: [process_url(url)] ([Sentinel.process_url],
    not in the sources): FETCH, COMPARE, then VERIFY or EXTRACT and
    UPSERT. *)
Definition process_url (c : Components) (now : Z) (u : string) (st : Store)
  : Result * Store * list Call :=
  match scrape_and_hash c u with
  | inl error =>
      ({| url := u; outcome := ScrapeFailed error |}, st, [ScrapeAndHash u])
  | inr (content, hash) =>
      let prior_hash := get_document_state u st in
      if bool_decide (prior_hash = Some hash) then
        let '(n, st1) := mark_verified u now st in
        ({| url := u; outcome := UnchangedVerified n |},
         set_document_state u hash now st1,
         [ScrapeAndHash u; GetDocumentState u; MarkVerified u; SetDocumentState u hash])
      else
        let bundle := extract c content in
        if is_empty_bundle bundle then
          ({| url := u; outcome := NoFacts |},
           set_document_state u hash now st,
           [ScrapeAndHash u; GetDocumentState u; Extract content; SetDocumentState u hash])
        else
          let '(stats, st1) := upsert_bundle bundle u now st in
          ({| url := u; outcome := Success stats |},
           set_document_state u hash now st1,
           [ScrapeAndHash u; GetDocumentState u; Extract content;
            UpsertBundle bundle u; SetDocumentState u hash])
  end.

End Orchestrator.

(** ** The HTTP facade: the application and its other handlers

    The module globals of [sentinel_platform/api/main.py], the handlers
    that read and write them, and the components they reach: the graph
    manager, the scraper, the extractor and the orchestrator, each taken
    by its behaviour on the world outside ([B]). Requests are handled one
    after the other. Messages of the interpreter are those of Python 3.11
    and later. *)

Module App.

(** What an [except] clause of the file tells apart in an exception: the
    class [GraphException], and the message [str(e)]. *)
Inductive error : Type :=
  | GraphException (msg : string)
  | OtherError (msg : string).

Definition error_msg (e : error) : string :=
  match e with
  | GraphException msg | OtherError msg => msg
  end.

Definition of_raising {A : Type} (r : Py.raising A) : error + A :=
  match r with
  | inl e => inl (OtherError (Py.exn_msg e))
  | inr a => inr a
  end.

(** [d.get(key)] on the pairs of a dictionary. *)
Fixpoint find_key (d : list (string * Py.pyval)) (key : string) : option Py.pyval :=
  match d with
  | [] => None
  | (k, v) :: d' => if bool_decide (k = key) then Some v else find_key d' key
  end.

(** [v[key]] for a string [key]: the value under the key of a dictionary,
    a [KeyError] (whose [str] is the [repr] of the key) when it has none,
    and a [TypeError] on a value that is no dictionary. *)
Definition py_getitem (v : Py.pyval) (key : string) : error + Py.pyval :=
  match v with
  | Py.VDict d =>
      match find_key d key with
      | Some x => inr x
      | None => inl (OtherError (Py.repr_str key))
      end
  | Py.VList _ => inl (OtherError "list indices must be integers or slices, not str")
  | Py.VStr _ => inl (OtherError "string indices must be integers, not 'str'")
  | _ => inl (OtherError ("'" +:+ Py.type_name v +:+ "' object is not subscriptable"))
  end.

(** The bodies of the responses. *)
Record HealthResponse : Type :=
  { status : string; timestamp : Z; agent_status : string }.

Record StatsResponse : Type :=
  { total_nodes : Py.pyval; total_edges : Py.pyval;
    stale_urls_count : nat; stats_timestamp : Z }.

Inductive Body : Type :=
  | HealthBody (h : HealthResponse)
  | StatusBody (s : Api.SystemStatus)
  | SnapshotBody (snapshot : Py.pyval)
  | StatsBody (s : StatsResponse)
  | ResultBody (result : gmap string Py.pyval).

Inductive Request : Type :=
  | GetRoot
  | GetHealth
  | GetStatus
  | GetGraphSnapshot (timestamp : option string)
  | GetStats
  | PostIngest (url : string)
  | PostQuery (question : string) (timestamp : option string).

Section Handlers.
Context {B M S X D : Type}.

(** The components, by what a call does to the world outside and gives
    back: [GraphManager()] and the methods of a manager [M], the session
    of its driver running a query, [get_scraper()] and the name of a
    scraper [S], [os.getenv], [GraphExtractor(model_name=...)],
    [Sentinel(graph_manager, scraper, extractor)], the task made of
    [run_healing_loop(days_threshold, interval_hours)], and
    [datetime.fromisoformat], which gives a datetime [D] or raises a
    [ValueError] with a message. *)
Record Components : Type :=
  { new_graph_manager : B -> (error + M) * B;
    verify_connectivity : M -> B -> (error + unit) * B;
    graph_snapshot : M -> option D -> B -> (error + Py.pyval) * B;
    find_stale_nodes : M -> Z -> B -> (error + Py.pyval) * B;
    run_query : M -> string -> B -> Py.raising (list Py.record) * B;
    close_manager : M -> B -> (error + unit) * B;
    get_scraper : B -> (error + S) * B;
    get_name : S -> B -> (error + string) * B;
    getenv : string -> B -> option string;
    new_graph_extractor : string -> B -> (error + X) * B;
    new_sentinel : M -> S -> X -> B -> (error + Api.Sentinel B) * B;
    create_healing_task : Api.Sentinel B -> Z -> Z -> B -> (error + unit) * B;
    fromisoformat : string -> string + D }.

(** The globals [graph_manager], [sentinel_agent] and [system_status],
    the last one with the world outside. *)
Record App : Type :=
  { graph_manager : option M;
    sentinel_agent : option (Api.Sentinel B);
    world : Api.World B }.

Definition initial (last_update : Z) (b : B) : App :=
  {| graph_manager := None;
     sentinel_agent := None;
     world := {| Api.system_status :=
                   {| Api.state := "Idle"; Api.message := "Waiting for tasks...";
                      Api.last_update := last_update |};
                 Api.backend := b |} |}.

Definition with_backend (b : B) (a : App) : App :=
  {| graph_manager := graph_manager a;
     sentinel_agent := sentinel_agent a;
     world := {| Api.system_status := Api.system_status (world a); Api.backend := b |} |}.

(** A piece of a handler: it raises or returns, and leaves the globals
    and the world changed. *)
Definition call (A : Type) : Type := App -> (error + A) * App.

#[global] Instance call_ret : MRet call := fun A x a => (inr x, a).

#[global] Instance call_bind : MBind call := fun A C k m a =>
  match m a with
  | (inl e, a') => (inl e, a')
  | (inr x, a') => k x a'
  end.

(** A call of a component. *)
Definition component {A : Type} (f : B -> (error + A) * B) : call A := fun a =>
  let '(r, b) := f (Api.backend (world a)) in (r, with_backend b a).

(** A computation that touches nothing. *)
Definition pure {A : Type} (r : error + A) : call A := fun a => (r, a).

Definition set_graph_manager (m : M) : call unit := fun a =>
  (inr tt, {| graph_manager := Some m;
              sentinel_agent := sentinel_agent a;
              world := world a |}).

Definition set_sentinel_agent (agent : Api.Sentinel B) : call unit := fun a =>
  (inr tt, {| graph_manager := graph_manager a;
              sentinel_agent := Some agent;
              world := world a |}).

Variable c : Components.

Definition get_graph_manager : call M := fun a =>
  match graph_manager a with
  | Some m => (inr m, a)
  | None =>
      (m ← component (new_graph_manager c);
       _ ← set_graph_manager m;
       mret m) a
  end.

(** ["running" if sentinel_agent else "stopped"] *)
Definition agent_status_of (a : App) : string :=
  match sentinel_agent a with
  | Some _ => "running"
  | None => "stopped"
  end.

(** [startup_event()]: whatever the [try] block raises is logged, and the
    globals stay as the block left them. *)
Definition startup_event (a : App) : App :=
  ((manager ← get_graph_manager;
    _ ← set_graph_manager manager;
    scraper ← component (get_scraper c);
    _ ← component (get_name c scraper);
    model_name ← (fun a => (inr (default "ollama/llama3"
                                   (getenv c "OLLAMA_MODEL" (Api.backend (world a)))), a));
    extractor ← component (new_graph_extractor c model_name);
    agent ← component (new_sentinel c manager scraper extractor);
    _ ← set_sentinel_agent agent;
    component (create_healing_task c agent 7 6)) a).2.

(** [shutdown_event()]; an exception of [close] is not caught. *)
Definition shutdown_event : call unit := fun a =>
  match graph_manager a with
  | Some m => component (close_manager c m) a
  | None => (inr tt, a)
  end.

(** [GET /] *)
Definition root (now : Z) (a : App) : HealthResponse :=
  {| status := "healthy"; timestamp := now; agent_status := agent_status_of a |}.

(** [GET /api/health] *)
Definition health (now : Z) (a : App) : (Api.HTTPException + HealthResponse) * App :=
  match (manager ← get_graph_manager; component (verify_connectivity c manager)) a with
  | (inr _, a') =>
      (inr {| status := "healthy"; timestamp := now; agent_status := agent_status_of a' |},
       a')
  | (inl _, a') =>
      (inl {| Api.status_code := 503; Api.detail := "Service unhealthy" |}, a')
  end.

(** [GET /api/status] *)
Definition get_status (a : App) : Api.SystemStatus := Api.system_status (world a).

(** The last two [except] clauses of [get_graph_snapshot]. *)
Definition snapshot_failure (e : error) : Api.HTTPException :=
  match e with
  | GraphException msg => {| Api.status_code := 500; Api.detail := msg |}
  | OtherError _ => {| Api.status_code := 500; Api.detail := "Internal server error" |}
  end.

(** The parsing of the [timestamp] parameter: none or an empty one stands
    for now, one that [fromisoformat] refuses raises the HTTP error 400. *)
Definition parse_timestamp (timestamp : option string) : Api.HTTPException + option D :=
  match timestamp with
  | None => inr None
  | Some t =>
      if Py.truthy t then
        match fromisoformat c (Py.replace "Z" "+00:00" t) with
        | inr dt => inr (Some dt)
        | inl e =>
            inl {| Api.status_code := 400;
                   Api.detail := "Invalid timestamp format: " +:+ e +:+
                                 ". Use ISO 8601 format." |}
        end
      else inr None
  end.

(** [len(v[key])], as the handler takes it for its log entry. *)
Definition len_of_item (v : Py.pyval) (key : string) : call nat :=
  item ← pure (py_getitem v key); pure (of_raising (Py.py_len item)).

(** [GET /api/graph-snapshot] *)
Definition get_graph_snapshot (timestamp : option string) (a : App)
  : (Api.HTTPException + Py.pyval) * App :=
  match get_graph_manager a with
  | (inl e, a1) => (inl (snapshot_failure e), a1)
  | (inr manager, a1) =>
      match parse_timestamp timestamp with
      | inl http_error => (inl http_error, a1)
      | inr dt =>
          match (snapshot ← component (graph_snapshot c manager dt);
                 _ ← len_of_item snapshot "nodes";
                 _ ← len_of_item snapshot "links";
                 mret snapshot) a1 with
          | (inr snapshot, a2) => (inr snapshot, a2)
          | (inl e, a2) => (inl (snapshot_failure e), a2)
          end
      end
  end.

(** [GET /api/stats] *)
Definition get_stats (now : Z) (a : App) : (Api.HTTPException + StatsResponse) * App :=
  match (manager ← get_graph_manager;
         snapshot ← component (graph_snapshot c manager None);
         stale_urls ← component (find_stale_nodes c manager 7);
         metadata ← pure (py_getitem snapshot "metadata");
         node_count ← pure (py_getitem metadata "node_count");
         metadata ← pure (py_getitem snapshot "metadata");
         link_count ← pure (py_getitem metadata "link_count");
         count ← pure (of_raising (Py.py_len stale_urls));
         mret {| total_nodes := node_count; total_edges := link_count;
                 stale_urls_count := count; stats_timestamp := now |}) a with
  | (inr stats, a') => (inr stats, a')
  | (inl e, a') => (inl {| Api.status_code := 500; Api.detail := error_msg e |}, a')
  end.

(** [POST /api/query]: the query engine runs its one lookup in a session
    of the manager; the length of the path is taken for the log entry. *)
Definition query_graph (question : string) (timestamp : option string) (a : App)
  : (Api.HTTPException + gmap string Py.pyval) * App :=
  match get_graph_manager a with
  | (inl e, a1) => (inl {| Api.status_code := 500; Api.detail := error_msg e |}, a1)
  | (inr manager, a1) =>
      let b := Api.backend (world a1) in
      let session_run := fun cypher_query => (run_query c manager cypher_query b).1 in
      let result := QueryEngine.execute_query_with_path session_run question timestamp in
      let a2 :=
        with_backend
          (run_query c manager (QueryEngine.generate_cypher_from_question question) b).2
          a1 in
      match Py.py_len (Api.dict_get result "path" (Py.VList [])) with
      | inr _ => (inr result, a2)
      | inl e => (inl {| Api.status_code := 500; Api.detail := Py.exn_msg e |}, a2)
      end
  end.

(** [POST /api/ingest], on the globals. *)
Definition ingest (url : string) (now1 now2 : Z) (a : App)
  : (Api.HTTPException + gmap string Py.pyval) * App :=
  let '(response, w) := Api.ingest_url (sentinel_agent a) url now1 now2 (world a) in
  (response, {| graph_manager := graph_manager a;
                sentinel_agent := sentinel_agent a;
                world := w |}).

(** *** Requests, one after the other *)

Definition answer {A : Type} (body : A -> Body) (r : (Api.HTTPException + A) * App)
  : (Api.HTTPException + Body) * App :=
  (match r.1 with
   | inl e => inl e
   | inr x => inr (body x)
   end, r.2).

(** The handler of a request; [now1] and [now2] are the readings of the
    clock at its first and at its last use by the handler. *)
Definition handle (request : Request) (now1 now2 : Z) (a : App)
  : (Api.HTTPException + Body) * App :=
  match request with
  | GetRoot => (inr (HealthBody (root now2 a)), a)
  | GetHealth => answer HealthBody (health now2 a)
  | GetStatus => (inr (StatusBody (get_status a)), a)
  | GetGraphSnapshot timestamp => answer SnapshotBody (get_graph_snapshot timestamp a)
  | GetStats => answer StatsBody (get_stats now2 a)
  | PostIngest url => answer ResultBody (ingest url now1 now2 a)
  | PostQuery question timestamp => answer ResultBody (query_graph question timestamp a)
  end.

(** What happens in the life of the application: a request is handled,
    or the world outside changes (the healing task, other clients of the
    graph). *)
Inductive Event : Type :=
  | Handled (request : Request) (now1 now2 : Z)
  | Outside (change : B -> B).

Definition step (a : App) (event : Event) : App :=
  match event with
  | Handled request now1 now2 => (handle request now1 now2 a).2
  | Outside change => with_backend (change (Api.backend (world a))) a
  end.

Definition run (events : list Event) (a : App) : App := foldl step a events.

End Handlers.

Arguments Components : clear implicits.
Arguments App : clear implicits.
Arguments Event : clear implicits.

End App.

(** ** Auxiliary notions of the statements, and the scenarios of the
    specification (section 8) *)

Module Scenarios.

Import Models GraphStore Orchestrator.

(** The calls that extract facts or write a bundle. *)
Definition extracts_or_upserts (c : Call) : Prop :=
  match c with
  | Extract _ | UpsertBundle _ _ => True
  | _ => False
  end.

(** The proposed edge [p] matches the stored edge [e]: [e] is live, joins
    the same endpoints with the same relation and has the content hash of
    [p]. *)
Definition matches (p : TemporalEdge) (e : Edge) : bool :=
  live_between (source p) (relation p) (target p) e &&
  bool_decide (e_hash e = compute_hash p).

(** How many proposed edges of [ps] match [e]. *)
Definition hits (ps : list TemporalEdge) (e : Edge) : nat :=
  length (filter (fun p => matches p e = true) ps).

(** The fields of an edge that a verification leaves alone. *)
Definition same_assertion (e e' : Edge) : Prop :=
  e_hash e' = e_hash e /\ e_source e' = e_source e /\ e_relation e' = e_relation e
  /\ e_target e' = e_target e /\ e_properties e' = e_properties e
  /\ e_valid_from e' = e_valid_from e /\ e_valid_to e' = e_valid_to e
  /\ e_confidence e' = e_confidence e.

Definition add_verified (n : nat) (stats : Stats) : Stats :=
  {| nodes_created := nodes_created stats;
     nodes_updated := nodes_updated stats;
     edges_created := edges_created stats;
     edges_verified := (n + edges_verified stats)%nat;
     edges_invalidated := edges_invalidated stats |}.


Definition proposed (s r t key value : string) (vf : Z) : TemporalEdge :=
  {| source := s; target := t; relation := r;
     properties := {[ key := SStr value ]};
     valid_from := vf; valid_to := None;
     confidence := QArith_base.Qmake 9 10 |}.

Definition example_url : string := "https://example.com/tesla".

(** S1: the store after the first bundle, applied at instant 100. *)
Definition founded_2003 : TemporalEdge :=
  proposed "tesla" "FOUNDED_BY" "elon" "year" "2003" 100.

Definition bundle_S1 : GraphData :=
  {| nodes := [ {| id := "tesla"; label := "Company"; node_properties := ∅ |};
                {| id := "elon"; label := "Person"; node_properties := ∅ |} ];
     edges := [founded_2003] |}.

Definition store_S1 : Store := (upsert_bundle bundle_S1 example_url 100 empty_store).2.




(** S3: the document of S1 is known by its hash, and scraped unchanged. *)
Definition store_S3 : Store := set_document_state example_url "hash123" 100 store_S1.

Definition unchanged_page : Components :=
  {| scrape_and_hash := fun _ => inr ("markdown content", "hash123");
     extract := fun _ => {| nodes := []; edges := [] |} |}.

(** The edges of the repository's hash test: equal content asserted a day
    apart, and a different year. *)
Definition test_edge (year : string) (vf : Z) : TemporalEdge :=
  proposed "tesla_inc" "FOUNDED_BY" "elon_musk" "year" year vf.


(** One day after instant 0. *)
Definition day_after : Z := GraphStore.day.











(** The text of a stored edge under its content hash, and the edge
    carrying the hash of its content, as every edge the store creates
    does. *)
Definition stored_text (e : Edge) : string :=
  e_source e +:+ e_relation e +:+ e_target e +:+ canonical_json (e_properties e).

Definition well_hashed (e : Edge) : Prop :=
  e_hash e = Sha256.hexdigest (stored_text e).

(** What every store that the operations reach keeps (section 3,
    invariant 1): every edge carries the hash of its content, and an
    edge and a relation have at most one live edge between two
    endpoints. *)
Definition one_live (log : list Edge) : Prop :=
  forall s r t, length (filter (fun e => live_between s r t e = true) log) <= 1.

Definition log_sound (log : list Edge) : Prop :=
  Forall well_hashed log /\ one_live log.










End Scenarios.

(** ** Notions for the texts the question-to-query helper builds *)

Module Texts.

(** Every character of [s] satisfies [p]. *)
Fixpoint str_all (p : ascii -> bool) (s : string) : bool :=
  match s with
  | EmptyString => true
  | String c r => p c && str_all p r
  end.

(** A cleaned word: not empty, and made of letters, digits and
    underscores. *)
Definition clean_word (w : string) : Prop :=
  w <> EmptyString /\ str_all Py.c_isword w = true.

Definition is_space (c : ascii) : bool := (Py.ord c =? 32)%Z.

Definition is_quote (c : ascii) : bool :=
  bool_decide (c = Py.squote) || bool_decide (c = Py.dquote).

(** The characters of a name pattern besides the escaped spaces: those
    of the words, and those of the fixed texts [(?i).*] and [|]. *)
Definition pattern_char (c : ascii) : bool :=
  Py.c_isword c || bool_decide (Py.ord c ∈ [40; 63; 41; 46; 42; 124]%Z).

(** In [s] every backslash stands before a space, every space after a
    backslash, and every other character is a [pattern_char]; [esc] tells
    that the character before [s] was a backslash. *)
Fixpoint escapes_ok (esc : bool) (s : string) : bool :=
  match s with
  | EmptyString => negb esc
  | String c r =>
      if esc then is_space c && escapes_ok false r
      else if (Py.ord c =? 92)%Z then escapes_ok true r
      else pattern_char c && escapes_ok false r
  end.

(** The relation of a record is a string, or the record has none (and
    the default, a string, stands in). *)
Definition relation_is_text (record : Py.record) : Prop :=
  forall default, exists s, Py.record_get record "relation" (Py.VStr default) = Py.VStr s.

(** The columns of the records that the general query and the founder
    query return, as their [RETURN] clauses name them. *)
Definition about_columns : list string :=
  ["source"; "relation"; "target"; "confidence"; "path_nodes"].

Definition founder_columns : list string :=
  ["person"; "relation"; "company"; "confidence"; "path_nodes"].

Definition about_record (source : Py.pyval) (relation : string)
    (target confidence path_nodes : Py.pyval) : Py.record :=
  [("source", source); ("relation", Py.VStr relation); ("target", target);
   ("confidence", confidence); ("path_nodes", path_nodes)].

Definition founder_record (person : Py.pyval) (relation : string)
    (company confidence path_nodes : Py.pyval) : Py.record :=
  [("person", person); ("relation", Py.VStr relation); ("company", company);
   ("confidence", confidence); ("path_nodes", path_nodes)].

(** The question asks for a price, in the eyes of both the query
    generation and the answer formatting. *)
Definition asks_price (question : string) : bool :=
  let ql := Py.lower question in
  Py.contains "how much" ql || Py.contains "cost" ql || Py.contains "price" ql.

(** The question makes [generate_cypher_from_question] search by name
    with the founder query, or else with the general query, if it names
    an entity. *)
Definition asks_founder (question : string) : bool :=
  let ql := Py.lower question in
  Py.contains "who" ql &&
  (Py.contains "founded" ql || Py.contains "created" ql || Py.contains "started" ql).

Definition asks_about (question : string) : bool :=
  let ql := Py.lower question in
  Py.contains "what" ql || Py.contains "tell" ql || Py.contains "about" ql.

(** The question is answered as one about a leader, or as one about
    changes, by [_format_answer]. *)
Definition answers_leader (question : string) : bool :=
  let ql := Py.lower question in
  Py.contains "who" ql &&
  (Py.contains "ceo" ql || Py.contains "founder" ql || Py.contains "founded" ql).

Definition answers_change (question : string) : bool :=
  let ql := Py.lower question in
  Py.contains "what" ql && Py.contains "changed" ql.

(** A row of the general query, as a record, and the line that the
    change branch of [_format_answer] writes for it. *)
Definition about_row (row : Py.pyval * string * Py.pyval * Py.pyval * Py.pyval)
  : Py.record :=
  let '(source, relation, target, confidence, path_nodes) := row in
  about_record source relation target confidence path_nodes.

Definition changed_recently (row : Py.pyval * string * Py.pyval * Py.pyval * Py.pyval)
  : string :=
  let '(source, relation, target, _, _) := row in
  "- " +:+ Py.py_str source +:+ " " +:+ Py.replace "_" " " (Py.lower relation) +:+ " " +:+
  Py.py_str target +:+ " (changed recently)".

End Texts.

(** ** Notions for the properties of the application *)

Module AppNotions.

Import App.

(** What the handlers other than the ingest keep of the globals: the
    agent, the status, and the graph manager once there is one. *)
Definition kept {B M : Type} (a a' : App B M) : Prop :=
  sentinel_agent a' = sentinel_agent a
  /\ Api.system_status (world a') = Api.system_status (world a)
  /\ (forall m, graph_manager a = Some m -> graph_manager a' = Some m).

(** The status shows no work in progress. *)
Definition at_rest {B M : Type} (a : App B M) : Prop :=
  Api.state (Api.system_status (world a)) = "Idle"
  \/ Api.state (Api.system_status (world a)) = "Error".

(** An installation in which the graph answers, with an empty snapshot
    that has no metadata, no scraper can be made, and no text is taken
    for a timestamp; the world outside counts the lookups run. *)
Definition no_scraper : Components nat unit unit unit Z :=
  {| new_graph_manager := fun b => (inr tt, b);
     verify_connectivity := fun _ b => (inr tt, b);
     graph_snapshot := fun _ _ b =>
       (inr (Py.VDict [("nodes", Py.VList []); ("links", Py.VList [])]), b);
     find_stale_nodes := fun _ _ b => (inr (Py.VList []), b);
     run_query := fun _ _ b => (inr [], S b);
     close_manager := fun _ b => (inr tt, b);
     get_scraper := fun b => (inl (OtherError "no scraper available"), b);
     get_name := fun _ b => (inr "none", b);
     getenv := fun _ _ => None;
     new_graph_extractor := fun _ b => (inr tt, b);
     new_sentinel := fun _ _ _ b =>
       (inr {| Api.process_url := fun _ b => (inl (Py.Exn "unreachable"), b) |}, b);
     create_healing_task := fun _ _ _ b => (inr tt, b);
     fromisoformat := fun t => inl ("Invalid isoformat string: " +:+ Py.repr_str t) |}.


(** An agent that reports a result without a status. *)
Definition silent_agent : Api.Sentinel nat :=
  {| Api.process_url := fun _ b => (inr ∅, S b) |}.

(** The application with its graph manager made and no agent. *)
Definition serving : App nat unit :=
  {| graph_manager := Some tt;
     sentinel_agent := None;
     world := world (initial (M := unit) 0 0) |}.

End AppNotions.

(** ** Properties of the question-to-query helper *)

Module QueryEngineProps.

Import QueryEngine.

(** The helper at work on the questions of the specification. *)
Example extract_ceo_question :
  _extract_entities_from_question "Who is the CEO of OpenAI?" = ["CEO"; "OpenAI"].
Proof. vm_compute. reflexivity. Qed.

Example extract_over_question_words :
  _extract_entities_from_question "Tesla Is Great - SpaceX too, 3D printing by NASA"
  = ["Tesla Great SpaceX"; "3D"; "NASA"].
Proof. vm_compute. reflexivity. Qed.

Example ceo_question_uses_leader_query :
  generate_cypher_from_question "Who is the CEO of OpenAI?" = leader_query.
Proof. vm_compute. reflexivity. Qed.

Example founder_question_pattern :
  generate_cypher_from_question "Who founded Tesla Motors?"
  = founder_query ("(?i).*Tesla" +:+ Py.backslash +:+ " Motors.*").
Proof. vm_compute. reflexivity. Qed.

(** Scenario S6: the record the store gives for its edge
    (openai, CEO_OF, sam_altman). *)
Example answer_S6 :
  let record :=
    [("person", Py.VStr "openai"); ("relation", Py.VStr "CEO_OF");
     ("company", Py.VStr "sam_altman");
     ("confidence", Py.VOpaque "float" "0.9" "0.9");
     ("path_nodes", Py.VList [Py.VStr "openai"; Py.VStr "sam_altman"])] in
  let response :=
    execute_query_with_path (fun _ => inr [record]) "Who is the CEO of OpenAI?" None in
  response !! "answer" = Some (Py.VStr "openai ceo of sam_altman.")
  /\ response !! "path" = Some (Py.VList [Py.VStr "openai"; Py.VStr "sam_altman"])
  /\ response !! "cypher_query" = Some (Py.VStr leader_query).
Proof. vm_compute. repeat split; reflexivity. Qed.

(** C6, as stated, fails: with a graph in which the emitted lookup matches
    no record, the answer of [execute_query_with_path] is not the sentence
    "I don't have enough information to answer that." *)
Lemma empty_lookup_answer_differs :
  let response :=
    execute_query_with_path (fun _ => inr []) "Who is the CEO of OpenAI?" None in
  ~ (response !! "answer" =
       Some (Py.VStr "I don't have enough information to answer that.")
     /\ response !! "path" = Some (Py.VList [])
     /\ response !! "results" = Some (Py.VList [])).
Proof.
  intros response [Hanswer _].
  vm_compute in Hanswer.
  discriminate Hanswer.
Qed.

(** C6, amended: when the emitted lookup matches no record,
    [execute_query_with_path] returns the answer "No results found." with
    an empty path and empty results, and nothing else; the sentence
    "I don't have enough information to answer that question." is what
    [_format_answer] gives for an empty record list, which it is never
    called with. *)
Theorem empty_lookup_no_results (session_run : session) (question : string)
    (timestamp : option string) :
  session_run (generate_cypher_from_question question) = inr [] ->
  execute_query_with_path session_run question timestamp = no_results_response
  /\ _format_answer question [] =
       inr "I don't have enough information to answer that question.".
Proof.
  intros Hrun. split; [|reflexivity].
  unfold execute_query_with_path, try_execute_query.
  rewrite Hrun. reflexivity.
Qed.

(** A graph that matches nothing, asked who the CEO of OpenAI is. *)
Lemma empty_lookup_no_results_witness :
  execute_query_with_path (fun _ => inr []) "Who is the CEO of OpenAI?" None
    = no_results_response
  /\ _format_answer "Who is the CEO of OpenAI?" [] =
       inr "I don't have enough information to answer that question.".
Proof.
  apply (empty_lookup_no_results (fun _ => inr []) "Who is the CEO of OpenAI?" None).
  reflexivity.
Defined.

(** Each query template selects edges by [valid_to] alone: the live ones,
    or for the change query the closed ones. *)
Lemma templates_select_by_valid_to (entity_pattern : string) :
  Forall (fun cypher_query =>
            Py.contains "WHERE r.valid_to IS NULL" cypher_query = true
            \/ Py.contains "WHERE r.valid_to IS NOT NULL" cypher_query = true)
         [founder_query entity_pattern; about_query entity_pattern;
          price_query; leader_query; changed_query; default_query].
Proof.
  repeat (apply Forall_cons; split); [..|apply Forall_nil]; cbv beta.
  5: right; vm_compute; reflexivity.
  all: first [left; vm_compute; reflexivity | exact I].
Qed.

Ltac pick_template :=
  repeat first [apply list_elem_of_here | apply list_elem_of_further].

Lemma generated_from_templates (question : string) :
  exists entity_pattern,
    generate_cypher_from_question question ∈
      [founder_query entity_pattern; about_query entity_pattern;
       price_query; leader_query; changed_query; default_query].
Proof.
  unfold generate_cypher_from_question.
  generalize (_extract_entities_from_question question) as entities.
  generalize (Py.lower question) as ql.
  intros ql entities. exists (entity_pattern_of entities). cbv zeta.
  set (fallback :=
         if Py.contains "how much" ql || Py.contains "cost" ql || Py.contains "price" ql
         then price_query
         else if Py.contains "who" ql && (Py.contains "ceo" ql || Py.contains "founder" ql)
         then leader_query
         else if Py.contains "what" ql && Py.contains "changed" ql then changed_query
         else default_query).
  assert (Hfallback :
    fallback ∈ [founder_query (entity_pattern_of entities);
                about_query (entity_pattern_of entities);
                price_query; leader_query; changed_query; default_query]).
  { unfold fallback.
    destruct (Py.contains "how much" ql || Py.contains "cost" ql || Py.contains "price" ql);
      [pick_template|].
    destruct (Py.contains "who" ql && (Py.contains "ceo" ql || Py.contains "founder" ql));
      [pick_template|].
    destruct (Py.contains "what" ql && Py.contains "changed" ql); pick_template. }
  destruct entities as [|e es]; [exact Hfallback|].
  destruct (Py.contains "who" ql &&
            (Py.contains "founded" ql || Py.contains "created" ql ||
             Py.contains "started" ql));
    [pick_template|].
  destruct (Py.contains "what" ql || Py.contains "tell" ql || Py.contains "about" ql);
    [pick_template|exact Hfallback].
Qed.

(** C7: the [timestamp] argument of [execute_query_with_path] takes no
    part in the lookup. Whatever the graph answers, the response with a
    timestamp is the response without one, and the query emitted, one of
    six templates, selects edges by [valid_to IS NULL] (or
    [IS NOT NULL] for the change query), never by an instant: no store
    state and no timestamp make the two responses differ. *)
Theorem timestamp_is_ignored (session_run : session) (question t : string) :
  execute_query_with_path session_run question (Some t) =
  execute_query_with_path session_run question None
  /\ (Py.contains "WHERE r.valid_to IS NULL"
        (generate_cypher_from_question question) = true
      \/ Py.contains "WHERE r.valid_to IS NOT NULL"
           (generate_cypher_from_question question) = true).
Proof.
  split; [reflexivity|].
  destruct (generated_from_templates question) as (entity_pattern & Hin).
  pose proof (templates_select_by_valid_to entity_pattern) as Hall.
  rewrite Forall_forall in Hall. by apply Hall.
Qed.

(** C8, as stated, fails: a lookup that runs without raising and matches
    no record is answered by a record without the ['cypher_query'] key. *)
Lemma success_without_cypher_query :
  exists response,
    try_execute_query (fun _ => inr []) "What is Tesla?" = inr response
    /\ execute_query_with_path (fun _ => inr []) "What is Tesla?" None = response
    /\ response !! "cypher_query" = None.
Proof.
  eexists. split; [reflexivity|]. split; [reflexivity|].
  vm_compute. reflexivity.
Qed.

(** C8, amended: [execute_query_with_path] always returns a record.
    If running the emitted query raises, the record is the error record of
    the exception's message. If the query matches no record, it is the
    "No results found." record, without ['cypher_query']. If it matches
    records, then either formatting the answer or measuring the path
    raises, and the record is the error record of that exception, or the
    record holds the answer, the path of the first record, all records as
    results, and the emitted query under ['cypher_query']. *)
Theorem execute_query_never_raises (session_run : session) (question : string)
    (timestamp : option string) :
  let cypher_query := generate_cypher_from_question question in
  let response := execute_query_with_path session_run question timestamp in
  match session_run cypher_query with
  | inl e => response = error_response (Py.exn_msg e)
  | inr [] => response = no_results_response
  | inr (first_record :: rest) =>
      let records := first_record :: rest in
      let path_nodes := Py.record_get first_record "path_nodes" (Py.VList []) in
      match _format_answer question records, Py.py_len path_nodes with
      | inl e, _ => response = error_response (Py.exn_msg e)
      | inr _, inl e => response = error_response (Py.exn_msg e)
      | inr answer, inr _ =>
          response =
            {[ "answer" := Py.VStr answer;
               "path" := path_nodes;
               "results" := Py.VList (map Py.VDict records);
               "cypher_query" := Py.VStr cypher_query ]}
      end
  end.
Proof.
  cbv zeta. unfold execute_query_with_path, try_execute_query.
  destruct (session_run (generate_cypher_from_question question)) as [e|[|first_record rest]];
    [reflexivity..|].
  cbn [mbind Py.raising_bind].
  destruct (_format_answer question (first_record :: rest)) as [e|answer];
    [reflexivity|].
  destruct (Py.py_len _) as [e|n]; reflexivity.
Qed.

End QueryEngineProps.

(** ** Properties of the ingest handler *)

Module ApiProps.

Import Api.

(** C10: without an agent, [POST /api/ingest] raises the HTTP error 503
    "Sentinel agent not initialized" and leaves the status and the backend
    (scraper, extractor, store) as they were: [process_url] is not
    reached. With an agent the handler does run [process_url] on the
    backend and stamps the status with the second clock reading. *)
Theorem ingest_without_agent (B : Type) (url : string) (now1 now2 : Z) (w : World B) :
  ingest_url None url now1 now2 w =
    (inl {| status_code := 503; detail := "Sentinel agent not initialized" |}, w)
  /\ forall agent : Sentinel B,
       let w' := (ingest_url (Some agent) url now1 now2 w).2 in
       backend w' = (process_url agent url (backend w)).2
       /\ last_update (system_status w') = now2.
Proof.
  split; [reflexivity|].
  intros agent. unfold ingest_url. cbn.
  destruct (process_url agent url (backend w)) as [[e|result] b2]; cbn; auto.
Qed.

End ApiProps.

(** ** Facts about strings *)

Module StrFacts.

Lemma append_cons (x : ascii) (a b : string) : String x a +:+ b = String x (a +:+ b).
Proof. reflexivity. Qed.

Lemma append_assoc (a b c : string) : (a +:+ b) +:+ c = a +:+ (b +:+ c).
Proof. induction a as [|x a IH]; [done|]. by rewrite !append_cons, IH. Qed.

Lemma append_nil_r (a : string) : a +:+ EmptyString = a.
Proof. induction a as [|x a IH]; [done|]. by rewrite append_cons, IH. Qed.


Lemma str_exists_append (f : ascii -> bool) (a b : string) :
  Py.str_exists f (a +:+ b) = Py.str_exists f a || Py.str_exists f b.
Proof.
  induction a as [|x a IH]; [done|].
  rewrite append_cons. simpl. rewrite IH. by destruct (f x).
Qed.


End StrFacts.

(** ** Properties of the entity extraction *)

Module EntityProps.

Import QueryEngine.

Section Runs.
Context {A : Type} (brk keep : A -> bool).

Lemma runs_nonempty (l : list A) : runs brk l <> [].
Proof. destruct l as [|x r]; simpl; [done|]. destruct (brk x), (runs brk r); done. Qed.

Lemma elem_of_piece (x : A) (g : list A) (gs : list (list A)) :
  x ∈ g -> g ∈ gs -> x ∈ concat gs.
Proof.
  intros Hx Hg. induction gs as [|g' gs IH]; [by inversion Hg|].
  simpl. apply elem_of_app. apply elem_of_cons in Hg as [<-|Hg]; auto.
Qed.

(** Cutting loses only the elements cut at. *)
Lemma concat_runs (l : list A) :
  concat (runs brk l) = filter (fun x => brk x = false) l.
Proof.
  induction l as [|x r IH]; simpl; [done|].
  destruct (brk x) eqn:Hx; simpl.
  - rewrite filter_cons_False by congruence. exact IH.
  - rewrite filter_cons_True by done. rewrite <- IH.
    destruct (runs brk r); done.
Qed.

(** Two neighbours that are not cut at lie side by side in one piece. *)
Lemma runs_neighbours (pre post : list A) (x y : A) :
  brk x = false -> brk y = false ->
  exists g a b, g ∈ runs brk (pre ++ x :: y :: post) /\ g = a ++ x :: y :: b.
Proof.
  intros Hx Hy. induction pre as [|z pre IH]; simpl.
  - rewrite Hx, Hy. destruct (runs brk post) as [|g gs] eqn:Hpost.
    + exists [x; y], [], []. split; [apply list_elem_of_here|done].
    + exists (x :: y :: g), [], g. split; [apply list_elem_of_here|done].
  - destruct IH as (g & a & b & Hin & ->).
    destruct (brk z).
    + exists (a ++ x :: y :: b), a, b. split; [by apply list_elem_of_further|done].
    + destruct (runs brk (pre ++ x :: y :: post)) as [|g0 gs]; [by inversion Hin|].
      apply elem_of_cons in Hin as [<-|Hin].
      * exists (z :: a ++ x :: y :: b), (z :: a), b.
        split; [apply list_elem_of_here|done].
      * exists (a ++ x :: y :: b), a, b. split; [by apply list_elem_of_further|done].
Qed.
End Runs.

Lemma pieces_nonempty (ws : list string) : pieces ws <> [].
Proof.
  unfold pieces. intros H. apply fmap_nil_inv in H. by apply runs_nonempty in H.
Qed.

Lemma attach_nil (gs : list (list string)) : gs <> [] -> attach [] gs = gs.
Proof. by destruct gs. Qed.

Section Step.
Context (word : string) (ws : list string).
Let w := Py.strip_nonword word.

Lemma pieces_skip : Py.truthy w = false -> pieces (word :: ws) = pieces ws.
Proof.
  intros H. unfold pieces. rewrite fmap_cons, filter_cons_False; [done|].
  fold w. by rewrite H.
Qed.

Lemma pieces_cut :
  Py.truthy w = true -> capitalised w = false -> pieces (word :: ws) = [] :: pieces ws.
Proof.
  intros H Hcap. unfold pieces. rewrite fmap_cons, filter_cons_True by done.
  simpl runs. fold w. by rewrite Hcap.
Qed.

Lemma pieces_word :
  Py.truthy w = true -> capitalised w = true ->
  exists g gs, pieces ws = g :: gs /\
    pieces (word :: ws) = (if qualifies w then w :: g else g) :: gs.
Proof.
  intros H Hcap. pose proof (pieces_nonempty ws) as Hne. unfold pieces in *.
  rewrite fmap_cons, filter_cons_True by done.
  simpl runs. fold w. rewrite Hcap. simpl negb. cbv iota.
  destruct (runs _ _) as [|g gs]; [done|].
  eexists _, _. split; [reflexivity|]. simpl.
  destruct (qualifies w) eqn:Hq.
  - by rewrite filter_cons_True by done.
  - by rewrite filter_cons_False by congruence.
Qed.

Lemma step_skip st : Py.truthy w = false -> entity_step st word = st.
Proof. intros H. destruct st. unfold entity_step. fold w. by rewrite H. Qed.

Lemma step_word entities current :
  Py.truthy w = true -> capitalised w = true ->
  entity_step (entities, current) word =
    (entities, if not_question_word w then current ++ [w] else current).
Proof.
  intros H Hcap. unfold entity_step. fold w. rewrite H, Hcap. simpl.
  by destruct (not_question_word w).
Qed.

Lemma step_cut entities current :
  Py.truthy w = true -> capitalised w = false ->
  entity_step (entities, current) word =
    match current with
    | [] => (entities, [])
    | _ :: _ => (entities ++ [Py.join " " current], [])
    end.
Proof.
  intros H Hcap. unfold entity_step. fold w. rewrite H, Hcap. simpl.
  by destruct current.
Qed.
End Step.

Lemma finish_loop (ws entities current : list string) :
  finish (foldl entity_step (entities, current) ws) =
  entities ++ map (Py.join " ") (filter (fun g => g <> []) (attach current (pieces ws))).
Proof.
  revert entities current.
  induction ws as [|word ws IH]; intros entities current.
  - change (pieces []) with [@nil string]. unfold finish, attach. simpl.
    rewrite app_nil_r. destruct current.
    + rewrite filter_cons_False by (intros H; by apply H). simpl. by rewrite app_nil_r.
    + by rewrite filter_cons_True by done.
  - change (foldl entity_step (entities, current) (word :: ws))
      with (foldl entity_step (entity_step (entities, current) word) ws).
    destruct (Py.truthy (Py.strip_nonword word)) eqn:Hword.
    2: { rewrite pieces_skip, step_skip by done. apply IH. }
    destruct (capitalised (Py.strip_nonword word)) eqn:Hcap.
    + destruct (pieces_word word ws Hword Hcap) as (g & gs & Hws & ->).
      rewrite step_word by done.
      unfold qualifies. rewrite Hcap. simpl andb.
      destruct (not_question_word (Py.strip_nonword word)) eqn:Hq.
      * rewrite IH, Hws. simpl attach. by rewrite <- (assoc_L (++) current).
      * by rewrite IH, Hws.
    + rewrite pieces_cut, step_cut by done. simpl attach. rewrite app_nil_r.
      destruct current as [|c current'].
      * rewrite filter_cons_False by (intros H; by apply H).
        by rewrite IH, attach_nil by apply pieces_nonempty.
      * rewrite filter_cons_True by done.
        rewrite IH, attach_nil by apply pieces_nonempty.
        by rewrite fmap_cons, <- (assoc_L (++) entities).
Qed.

Lemma extract_is_phrases (question : string) :
  _extract_entities_from_question question = map (Py.join " ") (phrases question).
Proof.
  unfold _extract_entities_from_question.
  pose proof (finish_loop (Py.split question) [] []) as H.
  unfold finish in H.
  destruct (foldl entity_step ([], []) (Py.split question)) as [entities current].
  simpl in H. rewrite H, attach_nil by apply pieces_nonempty. done.
Qed.

Lemma join_nonempty (g : list string) :
  g <> [] -> Forall (fun w => w <> EmptyString) g -> Py.join " " g <> EmptyString.
Proof.
  intros Hg Hall. destruct g as [|x r]; [done|].
  apply Forall_cons in Hall as [Hx _].
  destruct x as [|c x']; [done|]. simpl. by destruct r.
Qed.

Lemma truthy_nonempty (w : string) : Py.truthy w = true <-> w <> EmptyString.
Proof. by destruct w. Qed.

(** A qualifying word is capitalised, so it is not one the question is
    cut at. *)
Lemma qualifying_not_cut (ws : list string) :
  filter (fun w => qualifies w = true)
         (filter (fun w => negb (capitalised w) = false) ws)
  = filter (fun w => qualifies w = true) ws.
Proof.
  induction ws as [|w ws IH]; [done|].
  destruct (capitalised w) eqn:Hcap.
  - rewrite (filter_cons_True (fun w => negb (capitalised w) = false))
      by (by rewrite Hcap).
    rewrite !filter_cons, IH. done.
  - rewrite (filter_cons_False (fun w => negb (capitalised w) = false))
      by (by rewrite Hcap).
    rewrite IH. rewrite filter_cons_False; [done|].
    unfold qualifies. by rewrite Hcap.
Qed.

(** C9: the list [_extract_entities_from_question] returns is the list of
    [phrases] of the question, each joined with single spaces. Every
    phrase is a non-empty list of cleaned, non-empty words of the question
    that are capitalised (first character uppercase, or [isupper()]) and
    whose lowercase form is not a question word; the phrases taken
    together are exactly those words of the question, in order; two such
    words that follow each other in the question stand side by side in
    one phrase, a phrase ending only where the question has a word that
    is not capitalised (or ends); no returned string is empty; and a
    question without such a word gives the empty list. *)
Theorem extract_entities_phrases (question : string) :
  let entities := _extract_entities_from_question question in
  let words := tokens question in
  entities = map (Py.join " ") (phrases question)
  /\ Forall (fun g =>
       g <> [] /\
       Forall (fun w => w ∈ words /\ w <> EmptyString /\
                        capitalised w = true /\ Py.lower w ∉ question_words) g)
       (phrases question)
  /\ concat (phrases question) = filter (fun w => qualifies w = true) words
  /\ (forall pre post w1 w2,
        words = pre ++ w1 :: w2 :: post ->
        qualifies w1 = true -> qualifies w2 = true ->
        exists g a b, g ∈ phrases question /\ g = a ++ w1 :: w2 :: b)
  /\ Forall (fun e => e <> EmptyString) entities
  /\ (filter (fun w => qualifies w = true) words = [] -> entities = []).
Proof.
  cbv zeta.
  assert (Hwords : Forall
            (fun g => g <> [] /\
               Forall (fun w => w ∈ tokens question /\ w <> EmptyString /\
                                capitalised w = true /\ Py.lower w ∉ question_words) g)
            (phrases question)).
  { apply Forall_forall. intros g Hg. unfold phrases in Hg.
    apply list_elem_of_filter in Hg as [Hne Hg]. split; [done|].
    apply list_elem_of_fmap in Hg as (g0 & -> & Hg0).
    apply Forall_forall. intros w Hw.
    apply list_elem_of_filter in Hw as [Hq Hw].
    assert (Hin : w ∈ tokens question).
    { assert (Hc : w ∈ concat (runs (fun w => negb (capitalised w)) (tokens question))).
      { by apply (elem_of_piece _ g0). }
      rewrite concat_runs in Hc. by apply list_elem_of_filter in Hc as [_ Hc]. }
    split; [done|].
    split.
    { unfold tokens in Hin. apply list_elem_of_filter in Hin as [Ht _].
      by apply truthy_nonempty. }
    unfold qualifies in Hq. apply andb_true_iff in Hq as [Hcap Hnq].
    split; [done|]. unfold not_question_word in Hnq.
    by apply bool_decide_eq_true in Hnq. }
  assert (Hconcat : concat (phrases question) =
                    filter (fun w => qualifies w = true) (tokens question)).
  { unfold phrases.
    rewrite <- (qualifying_not_cut (tokens question)), <- concat_runs.
    generalize (runs (fun w => negb (capitalised w)) (tokens question)) as gs.
    induction gs as [|g gs IH]; simpl; [done|].
    rewrite filter_app, <- IH.
    destruct (filter (fun w => qualifies w = true) g) eqn:Hg.
    - by rewrite filter_cons_False by (intros H; by apply H).
    - by rewrite filter_cons_True by done. }
  assert (Hextract := extract_is_phrases question).
  split; [done|]. split; [done|]. split; [done|].
  split; [|split].
  - intros pre post w1 w2 Hsplit Hq1 Hq2.
    destruct (runs_neighbours (fun w => negb (capitalised w)) pre post w1 w2)
      as (g & a & b & Hin & ->).
    { apply andb_true_iff in Hq1 as [-> _]. done. }
    { apply andb_true_iff in Hq2 as [-> _]. done. }
    exists (filter (fun w => qualifies w = true) (a ++ w1 :: w2 :: b)),
           (filter (fun w => qualifies w = true) a),
           (filter (fun w => qualifies w = true) b).
    split.
    + unfold phrases. apply list_elem_of_filter. split.
      * rewrite filter_app, filter_cons_True by done. by destruct (filter _ a).
      * apply list_elem_of_fmap. eexists. split; [done|]. by rewrite Hsplit.
    + by rewrite filter_app, !filter_cons_True by done.
  - rewrite Hextract. apply Forall_fmap. eapply Forall_impl; [exact Hwords|].
    intros g [Hg Hall]. simpl. apply join_nonempty; [done|].
    eapply Forall_impl; [exact Hall|]. simpl. tauto.
  - intros Hnone. rewrite Hextract. rewrite Hnone in Hconcat.
    destruct (phrases question) as [|g gs]; [done|].
    apply Forall_cons in Hwords as [[Hg _] _].
    destruct g; [done|]. discriminate Hconcat.
Qed.

End EntityProps.

(** ** The canonical JSON text determines the property map *)

Module JsonProps.

Import Models Scenarios StrFacts.





(** *** Numerals *)







(** *** Values, entries, objects *)









(** *** No canonical text ends in another

    Within a canonical text an opening brace after the first stands
    inside a string literal; read from there, the literals and what
    separates them change places, and the text would end inside a
    literal. *)














End JsonProps.

(** ** Properties of the content hash *)

Module HashProps.

Import Models Scenarios StrFacts JsonProps.

Local Open Scope Z_scope.

(** The digest on the test vectors of FIPS 180-4, and on the first edge
    of the repository's hash test. *)
Example sha256_abc :
  Sha256.hexdigest "abc"
  = "ba7816bf8f01cfea414140de5dae2223b00361a396177a9cb410ff61f20015ad".
Proof. vm_compute. reflexivity. Qed.

Example sha256_empty :
  Sha256.hexdigest EmptyString
  = "e3b0c44298fc1c149afbf4c8996fb92427ae41e4649b934ca495991b7852b855".
Proof. vm_compute. reflexivity. Qed.

Example sha256_two_blocks :
  Sha256.hexdigest "abcdbcdecdefdefgefghfghighijhijkijkljklmklmnlmnomnopnopq"
  = "248d6a61d20638b8e5c026930c3e6039a33ce45964ff2167f6ecedd419db06c1".
Proof. vm_compute. reflexivity. Qed.

Example test_edge_hash :
  compute_hash (test_edge "2003" 0)
  = "f828d431c3678f9cc17d54139233de0bde1c46e8c93cb32e3889776102a60a9b".
Proof. vm_compute. reflexivity. Qed.

(** *** The digest is a 256-bit number *)






(** *** The hex digest has 64 hexadecimal digits *)




(** *** Equal hex digests are equal digests, equal bytes equal texts *)






(** *** The content hash *)





(** The same content asserted a day apart has one hash. *)
Example test_edges_a_day_apart :
  compute_hash (test_edge "2003" 0) = compute_hash (test_edge "2003" day_after).
Proof. reflexivity. Qed.

End HashProps.

(** ** Invariants of the edge log *)

Module InvariantProps.

Import Models GraphStore Scenarios.

Local Open Scope Z_scope.

Lemma live_between_triple (s r t : string) (e : Edge) :
  live_between s r t e = true <->
  e_source e = s /\ e_relation e = r /\ e_target e = t /\ is_live e = true.
Proof.
  unfold live_between, between.
  rewrite !andb_true_iff, !bool_decide_eq_true. tauto.
Qed.

Lemma sound_nil : log_sound [].
Proof. split; [constructor|]. intros s r t. simpl. lia. Qed.



(** *** Maps that keep the assertion of each edge *)

Section KeepAssertion.
Context (f : Edge -> Edge).
Context (Hkeep : forall e, same_assertion e (f e)).

Lemma keep_live_between (s r t : string) (e : Edge) :
  live_between s r t (f e) = live_between s r t e.
Proof.
  destruct (Hkeep e) as (_ & Hs & Hr & Ht & _ & _ & Hto & _).
  unfold live_between, between, is_live. by rewrite Hs, Hr, Ht, Hto.
Qed.

Lemma keep_live_count (s r t : string) (log : list Edge) :
  length (filter (fun e => live_between s r t e = true) (map f log)) =
  length (filter (fun e => live_between s r t e = true) log).
Proof.
  induction log as [|e log IH]; [done|]. simpl map.
  destruct (live_between s r t e) eqn:Hl.
  - rewrite !filter_cons_True by (by rewrite ?keep_live_between). simpl. by rewrite IH.
  - by rewrite !filter_cons_False by (rewrite ?keep_live_between; congruence).
Qed.

Lemma keep_well_hashed (e : Edge) : well_hashed e -> well_hashed (f e).
Proof.
  destruct (Hkeep e) as (Hh & Hs & Hr & Ht & Hp & _).
  unfold well_hashed, stored_text. by rewrite Hh, Hs, Hr, Ht, Hp.
Qed.

Lemma keep_sound (log : list Edge) : log_sound log -> log_sound (map f log).
Proof.
  intros (Hall & Hone). split.
  - apply Forall_fmap. eapply Forall_impl; [exact Hall|]. intros e.
    apply keep_well_hashed.
  - intros s r t. rewrite keep_live_count. apply Hone.
Qed.

End KeepAssertion.

Lemma verify_keeps (url : string) (now : Z) (P : Edge -> bool) (e : Edge) :
  same_assertion e (if P e then verify url now e else e).
Proof. destruct (P e); by repeat split. Qed.

Lemma verify_sound (url : string) (now : Z) (P : Edge -> bool) (log : list Edge) :
  log_sound log -> log_sound (map (fun e => if P e then verify url now e else e) log).
Proof. apply keep_sound. intros e. apply verify_keeps. Qed.


(** *** Closing the live edges between two endpoints, with any date *)

Section Close.
Context (s r t : string) (at_time : Z).

Local Abbreviation closing :=
  (fun e => if live_between s r t e then close at_time e else e).

Lemma close_live_between (s' r' t' : string) (e : Edge) :
  live_between s' r' t' (closing e) = true ->
  live_between s' r' t' e = true /\ live_between s r t e = false /\ closing e = e.
Proof.
  cbv beta. destruct (live_between s r t e) eqn:Hl; [|done].
  unfold live_between. simpl. by rewrite andb_false_r.
Qed.

Lemma close_live_count (s' r' t' : string) (log : list Edge) :
  (length (filter (fun e => live_between s' r' t' e = true) (map closing log)) <=
   length (filter (fun e => live_between s' r' t' e = true) log))%nat.
Proof.
  induction log as [|e log IH]; [done|]. simpl map.
  destruct (live_between s' r' t' (closing e)) eqn:Hc.
  - apply close_live_between in Hc as (Hl & Hn & _). rewrite Hn.
    rewrite !filter_cons_True by done. simpl. lia.
  - rewrite filter_cons_False by congruence.
    destruct (live_between s' r' t' e) eqn:Hl.
    + rewrite (filter_cons_True _ e) by done. simpl. lia.
    + by rewrite (filter_cons_False _ e) by congruence.
Qed.

Lemma close_none_live (log : list Edge) :
  filter (fun e => live_between s r t e = true) (map closing log) = [].
Proof.
  induction log as [|e log IH]; [done|]. simpl map.
  rewrite filter_cons_False; [exact IH|].
  intros Hc. apply close_live_between in Hc as (Hl & Hn & _). congruence.
Qed.

Lemma close_sound (log : list Edge) : log_sound log -> log_sound (map closing log).
Proof.
  intros (Hall & Hone). split.
  - apply Forall_fmap. eapply Forall_impl; [exact Hall|]. intros e He. simpl.
    by destruct (live_between s r t e).
  - intros s' r' t'. etrans; [apply close_live_count|apply Hone].
Qed.

End Close.

(** *** Appending a new live edge *)

Lemma new_sound (now : Z) (url : string) (p : TemporalEdge) (log : list Edge) :
  log_sound log ->
  filter (fun e => live_between (source p) (relation p) (target p) e = true) log = [] ->
  log_sound (log ++ [new_edge url now p]).
Proof.
  intros (Hall & Hone) Hnone. split.
  - apply Forall_app. split; [done|]. constructor; [reflexivity|done].
  - intros s r t. rewrite filter_app, length_app.
    destruct (live_between s r t (new_edge url now p)) eqn:Hn.
    + apply live_between_triple in Hn as (<- & <- & <- & _). simpl.
      rewrite Hnone. apply (length_filter _ [new_edge url now p]).
    + rewrite (filter_cons_False _ (new_edge url now p)) by congruence.
      specialize (Hone s r t). simpl. lia.
Qed.


(** *** The operations keep the invariants *)

Section Upsert.
Context (inv : list Edge -> Prop) (url : string) (now : Z).
Context (Hverify : forall (P : Edge -> bool) log,
           inv log -> inv (map (fun e => if P e then verify url now e else e) log)).
Context (Hclose : forall s r t log,
           inv log ->
           inv (map (fun e => if live_between s r t e then close now e else e) log)).
Context (Hnew : forall p log,
           inv log ->
           filter (fun e => live_between (source p) (relation p) (target p) e = true) log
             = [] ->
           inv (log ++ [new_edge url now p])).

Lemma upsert_edge_keeps (stats : Stats) (st : Store) (p : TemporalEdge) :
  inv (edge_log st) -> inv (edge_log (upsert_edge url now (stats, st) p).2).
Proof.
  intros Hinv. unfold upsert_edge.
  destruct (existsb _ _); simpl.
  - by apply Hverify.
  - apply Hnew; [by apply Hclose|apply close_none_live].
Qed.

Lemma upsert_edges_keep (ps : list TemporalEdge) :
  forall acc : Stats * Store,
    inv (edge_log acc.2) -> inv (edge_log (foldl (upsert_edge url now) acc ps).2).
Proof.
  induction ps as [|p ps IH]; intros [stats st] Hinv; [done|].
  change (foldl (upsert_edge url now) (stats, st) (p :: ps))
    with (foldl (upsert_edge url now) (upsert_edge url now (stats, st) p) ps).
  apply IH. by apply upsert_edge_keeps.
Qed.
End Upsert.

Lemma merge_nodes_log (ns : list GraphNode) :
  forall acc : Stats * Store, edge_log (foldl merge_node acc ns).2 = edge_log acc.2.
Proof.
  induction ns as [|n ns IH]; intros [stats st]; [done|].
  change (foldl merge_node (stats, st) (n :: ns))
    with (foldl merge_node (merge_node (stats, st) n) ns).
  rewrite IH. unfold merge_node. by destruct (entities st !! id n).
Qed.

(** Every store the operations reach, whatever the dates given to
    [invalidate], has edges that carry the hash of their content and at
    most one live edge for an assertion (invariant 1 of section 3). *)
Lemma reachable_sound (dated : Z -> Z -> Prop) (now : Z) (st : Store) :
  reachable_by dated now st -> log_sound (edge_log st).
Proof.
  induction 1 as [now|now now' st _ IH Hle|now st bundle url _ IH|now st url _ IH
                 |now st url hash _ IH|now st s r t at_time _ IH Hdated|now st _ IH].
  - apply sound_nil.
  - exact IH.
  - unfold upsert_bundle. apply upsert_edges_keep.
    + intros P log. apply verify_sound.
    + intros s r t log. apply close_sound.
    + intros p log. apply new_sound.
    + by rewrite merge_nodes_log.
  - by apply verify_sound.
  - exact IH.
  - by apply close_sound.
  - apply sound_nil.
Qed.


(** In a log with at most one live edge for each assertion, a live edge
    is the only live one between its endpoints. *)
Lemma one_live_filter (s r t : string) (old : Edge) (log : list Edge) :
  one_live log -> old ∈ log -> live_between s r t old = true ->
  filter (fun e => live_between s r t e = true) log = [old].
Proof.
  intros Hone Hin Hlive. specialize (Hone s r t).
  assert (Hold : old ∈ filter (fun e => live_between s r t e = true) log)
    by (by apply list_elem_of_filter).
  destruct (filter (fun e => live_between s r t e = true) log) as [|x [|y l]].
  - by apply elem_of_nil in Hold.
  - by apply list_elem_of_singleton in Hold as ->.
  - simpl in Hone. lia.
Qed.



Lemma reachable_S1 : reachable 100 store_S1.
Proof. apply reach_upsert, reach_empty. Qed.




End InvariantProps.

(** ** Properties of the temporal graph store *)

Module StoreProps.

Import Models GraphStore Scenarios HashProps JsonProps InvariantProps.

Local Open Scope Z_scope.

Lemma is_live_spec (e : Edge) : is_live e = true <-> e_valid_to e = None.
Proof. unfold is_live. destruct (e_valid_to e); split; congruence. Qed.

Lemma live_from_spec (url : string) (e : Edge) :
  live_from url e = true <-> is_live e = true /\ e_source_url e = url.
Proof.
  unfold live_from. rewrite andb_true_iff, bool_decide_eq_true. tauto.
Qed.

(** Scenario S1: two entities and one edge into the empty store. *)
Example upsert_S1 :
  let '(stats, st) := upsert_bundle bundle_S1 example_url 100 empty_store in
  stats = {| nodes_created := 2; nodes_updated := 0; edges_created := 1;
             edges_verified := 0; edges_invalidated := 0 |}
  /\ length (links (snapshot_at 101 st)) = 1%nat
  /\ links (snapshot_at 99 st) = [].
Proof. vm_compute. repeat split; reflexivity. Qed.

(** Scenario S4: an edge last verified 30 days ago is stale at threshold
    7, and no longer once its URL is marked verified. *)
Example stale_S4 :
  let now := 100 + 30 * day in
  find_stale 7 now store_S1 = [example_url]
  /\ find_stale 7 now (mark_verified example_url now store_S1).2 = [].
Proof. vm_compute. split; reflexivity. Qed.

(** C5: [find_stale d] lists each stale URL once, and a URL is stale
    exactly when it is the [source_url] of a live edge and all its live
    edges have [last_verified] earlier than [now] minus [d] days. So a
    URL whose live edges were all last verified 30 days ago is returned
    for [d = 7], and a URL with a live edge verified within the window is
    not returned, whatever its other edges. *)
Theorem find_stale_per_url (d now : Z) (st : Store) :
  let cutoff := now - d * day in
  let live_of url e := e ∈ edge_log st /\ is_live e = true /\ e_source_url e = url in
  NoDup (find_stale d now st)
  /\ (forall url,
        url ∈ find_stale d now st <->
        (exists e, live_of url e) /\ (forall e, live_of url e -> e_last_verified e < cutoff))
  /\ (forall url,
        (exists e, live_of url e) ->
        (forall e, live_of url e -> e_last_verified e <= now - 30 * day) ->
        url ∈ find_stale 7 now st)
  /\ (forall url e,
        live_of url e -> cutoff <= e_last_verified e -> url ∉ find_stale d now st).
Proof.
  cbv zeta.
  assert (Hiff : forall d' url,
             url ∈ find_stale d' now st <->
             (exists e, e ∈ edge_log st /\ is_live e = true /\ e_source_url e = url) /\
             (forall e, e ∈ edge_log st /\ is_live e = true /\ e_source_url e = url ->
                        e_last_verified e < now - d' * day)).
  { intros d' url. unfold find_stale.
    rewrite list_elem_of_filter, elem_of_remove_dups, list_elem_of_fmap.
    rewrite forallb_forall. split.
    - intros [Hall (e & -> & He)]. apply list_elem_of_filter in He as [Hlive He].
      split; [by exists e|].
      intros e' (He' & Hlive' & Hurl).
      apply Z.ltb_lt, Hall, list_elem_of_In, list_elem_of_filter.
      split; [|done]. by apply live_from_spec.
    - intros [(e & He & Hlive & <-) Hall]. split.
      + intros e' He'. apply list_elem_of_In, list_elem_of_filter in He' as [Hfrom He'].
        apply live_from_spec in Hfrom as [Hlive' Hurl]. apply Z.ltb_lt. by apply Hall.
      + exists e. split; [done|]. by apply list_elem_of_filter. }
  split; [|split; [|split]].
  - unfold find_stale. apply NoDup_filter, NoDup_remove_dups.
  - apply Hiff.
  - intros url Hex Hold. apply Hiff. split; [done|].
    intros e He. specialize (Hold e He). unfold day in *. lia.
  - intros url e He Hfresh Hin. apply Hiff in Hin as [_ Hall].
    specialize (Hall e He). lia.
Qed.

(** *** Re-running a bundle *)

Lemma matches_verify (url : string) (now : Z) (p : TemporalEdge) (e : Edge) :
  matches p (verify url now e) = matches p e.
Proof. reflexivity. Qed.

Lemma matches_iter (url : string) (now : Z) (p : TemporalEdge) (n : nat) (e : Edge) :
  matches p (Nat.iter n (verify url now) e) = matches p e.
Proof. induction n as [|n IH]; [done|]. simpl. by rewrite matches_verify. Qed.

Lemma live_between_iter (url : string) (now : Z) (s r t : string) (n : nat) (e : Edge) :
  live_between s r t (Nat.iter n (verify url now) e) = live_between s r t e.
Proof. induction n as [|n IH]; [done|]. simpl. exact IH. Qed.

Lemma same_assertion_iter (url : string) (now : Z) (n : nat) (e : Edge) :
  same_assertion e (Nat.iter n (verify url now) e).
Proof.
  induction n as [|n IH]; [by repeat split|].
  simpl. unfold same_assertion in *. simpl. exact IH.
Qed.

(** Case A: a proposed edge with a match only verifies. *)
Lemma upsert_edge_match (url : string) (now : Z) (stats : Stats) (st : Store)
    (p : TemporalEdge) :
  (exists e, e ∈ edge_log st /\ matches p e = true) ->
  exists ents,
    upsert_edge url now (stats, st) p =
      (add_verified 1 stats,
       with_entities ents
         (with_edges (map (fun e => if matches p e then verify url now e else e)
                          (edge_log st)) st)).
Proof.
  intros (e & He & Hm). unfold upsert_edge.
  assert (Hex : existsb
            (fun e => live_between (source p) (relation p) (target p) e &&
                      bool_decide (e_hash e = compute_hash p))
            (filter (fun e => live_between (source p) (relation p) (target p) e = true)
                    (edge_log st)) = true).
  { apply existsb_exists. exists e. split; [|exact Hm].
    apply list_elem_of_In, list_elem_of_filter. split; [|done].
    unfold matches in Hm. by apply andb_true_iff in Hm as [-> _]. }
  rewrite Hex. eexists. reflexivity.
Qed.

Lemma upsert_edges_match (url : string) (now : Z) (ps : list TemporalEdge) :
  forall (stats : Stats) (st : Store),
    Forall (fun p => exists e, e ∈ edge_log st /\ matches p e = true) ps ->
    exists ents,
      foldl (upsert_edge url now) (stats, st) ps =
        (add_verified (length ps) stats,
         with_entities ents
           (with_edges (map (fun e => Nat.iter (hits ps e) (verify url now) e)
                            (edge_log st)) st)).
Proof.
  induction ps as [|p ps IH]; intros stats st Hall.
  - exists (entities st). simpl. f_equal.
    + by destruct stats.
    + destruct st. unfold with_entities, with_edges. simpl. f_equal.
      by rewrite map_id.
  - apply Forall_cons in Hall as [Hp Hps].
    destruct (upsert_edge_match url now stats st p Hp) as (ents1 & Hstep).
    change (foldl (upsert_edge url now) (stats, st) (p :: ps))
      with (foldl (upsert_edge url now) (upsert_edge url now (stats, st) p) ps).
    rewrite Hstep.
    edestruct (IH (add_verified 1 stats)) as (ents2 & ->).
    { eapply Forall_impl; [exact Hps|]. simpl. intros q (e & He & Hq).
      exists (if matches p e then verify url now e else e). split.
      - apply list_elem_of_fmap. by exists e.
      - destruct (matches p e); [by rewrite matches_verify|done]. }
    exists ents2. f_equal.
    + unfold add_verified. simpl. f_equal. lia.
    + unfold with_entities, with_edges. simpl. f_equal.
      rewrite map_map. apply map_ext. intros e.
      unfold hits at 2. rewrite filter_cons. fold (hits ps e).
      destruct (matches p e) eqn:Hm.
      * rewrite decide_True by done.
        replace (hits ps (verify url now e)) with (hits ps e) by done.
        change (length (p :: filter (fun p0 => matches p0 e = true) ps))
          with (S (hits ps e)).
        by rewrite Nat.iter_succ_r.
      * by rewrite decide_False by congruence.
Qed.

Lemma merge_nodes_edges (ns : list GraphNode) :
  forall (stats : Stats) (st : Store),
    edge_log (foldl merge_node (stats, st) ns).2 = edge_log st
    /\ edges_created (foldl merge_node (stats, st) ns).1 = edges_created stats
    /\ edges_verified (foldl merge_node (stats, st) ns).1 = edges_verified stats
    /\ edges_invalidated (foldl merge_node (stats, st) ns).1 = edges_invalidated stats.
Proof.
  induction ns as [|n ns IH]; intros stats st; [done|].
  change (foldl merge_node (stats, st) (n :: ns))
    with (foldl merge_node (merge_node (stats, st) n) ns).
  destruct (merge_node (stats, st) n) as [stats1 st1] eqn:Hstep.
  destruct (IH stats1 st1) as (-> & -> & -> & ->).
  unfold merge_node in Hstep.
  destruct (entities st !! id n); by inversion Hstep.
Qed.

(** C2: when every proposed edge of a bundle has the content hash of a
    live edge between the same endpoints, [upsert_bundle] creates and
    invalidates no edge and counts one verification for each proposed
    edge. The edge log keeps its edges in place: an edge matched by [n]
    proposed edges is verified [n] times (last verification at [now],
    [source_url] refreshed, count raised by [n]), an edge matched by none
    is untouched, and in both cases hash, endpoints, relation, properties,
    validity interval and confidence are as before. The number of live
    edges between any two endpoints with any relation is unchanged; in a
    store that the operations reach it is one for the endpoints and
    relation of every proposed edge. *)
Theorem rerun_bundle_only_verifies (bundle : GraphData) (url : string) (now : Z)
    (st : Store) :
  Forall (fun p => exists e, e ∈ edge_log st /\ matches p e = true) (edges bundle) ->
  let '(stats, st') := upsert_bundle bundle url now st in
  edges_created stats = 0%nat
  /\ edges_invalidated stats = 0%nat
  /\ edges_verified stats = length (edges bundle)
  /\ edge_log st' =
       map (fun e => Nat.iter (hits (edges bundle) e) (verify url now) e) (edge_log st)
  /\ Forall2 (fun e e' =>
                same_assertion e e'
                /\ e_verification_count e' =
                     (hits (edges bundle) e + e_verification_count e)%nat
                /\ ((0 < hits (edges bundle) e)%nat ->
                      e_last_verified e' = now /\ e_source_url e' = url)
                /\ (hits (edges bundle) e = 0%nat -> e' = e))
             (edge_log st) (edge_log st')
  /\ (forall s r t,
        length (filter (fun e => live_between s r t e = true) (edge_log st')) =
        length (filter (fun e => live_between s r t e = true) (edge_log st)))
  /\ (reachable now st ->
        Forall (fun p =>
                  length (filter (fun e => live_between (source p) (relation p)
                                             (target p) e = true) (edge_log st'))
                  = 1%nat)
               (edges bundle)).
Proof.
  intros Hall. unfold upsert_bundle.
  pose proof (merge_nodes_edges (nodes bundle) no_stats st) as (Hlog & Hc & Hv & Hi).
  destruct (foldl merge_node (no_stats, st) (nodes bundle)) as [stats0 st0].
  simpl in Hlog, Hc, Hv, Hi.
  destruct (upsert_edges_match url now (edges bundle) stats0 st0) as (ents & ->).
  { by rewrite Hlog. }
  simpl. rewrite Hc, Hv, Hi, Hlog.
  split; [done|]. split; [done|]. split; [lia|]. split; [done|].
  assert (Hcount : forall s r t,
            length (filter (fun e => live_between s r t e = true)
                      (map (fun e => Nat.iter (hits (edges bundle) e) (verify url now) e)
                           (edge_log st))) =
            length (filter (fun e => live_between s r t e = true) (edge_log st))).
  { intros s r t. generalize (edge_log st) as log.
    intros log. induction log as [|e log IH]; [done|].
    rewrite fmap_cons, !filter_cons, live_between_iter.
    destruct (decide (live_between s r t e = true)); simpl; [f_equal|]; exact IH. }
  split; [|split; [exact Hcount|]].
  - generalize (edge_log st) as log.
    intros log. induction log as [|e log IH]; simpl; constructor; [|exact IH].
    split; [apply same_assertion_iter|].
    generalize (hits (edges bundle) e) as n. intros n.
    split; [|split].
    + induction n as [|n IHn]; [done|]. simpl. by rewrite IHn.
    + destruct n; [lia|]. done.
    + by intros ->.
  - intros Hreach. destruct (reachable_sound _ now st Hreach) as (_ & Hone).
    eapply Forall_impl; [exact Hall|]. intros p (e & He & Hm). simpl.
    rewrite Hcount. unfold matches in Hm. apply andb_true_iff in Hm as [Hl _].
    by rewrite (one_live_filter _ _ _ e _ Hone He Hl).
Qed.

(** The bundle of scenario S1, run again on the store it produced. *)
Lemma rerun_bundle_only_verifies_witness :
  let '(stats, st') := upsert_bundle bundle_S1 "https://example.com/again" 400 store_S1 in
  edges_created stats = 0%nat
  /\ edges_invalidated stats = 0%nat
  /\ edges_verified stats = 1%nat
  /\ map e_verification_count (edge_log st') = [2%nat]
  /\ map e_source_url (edge_log st') = ["https://example.com/again"]
  /\ map e_valid_from (edge_log st') = [100%Z]
  /\ length (filter (fun e => live_between "tesla" "FOUNDED_BY" "elon" e = true)
                    (edge_log st')) = 1%nat.
Proof.
  assert (Hmatch : Forall (fun p => exists e, e ∈ edge_log store_S1 /\ matches p e = true)
                          (edges bundle_S1)).
  { constructor; [|constructor].
    exists (new_edge example_url 100 founded_2003).
    split; [apply list_elem_of_here|]. vm_compute. reflexivity. }
  pose proof (rerun_bundle_only_verifies bundle_S1 "https://example.com/again" 400
                store_S1 Hmatch) as H.
  destruct (upsert_bundle bundle_S1 "https://example.com/again" 400 store_S1)
    as [stats st'].
  destruct H as (Hc & Hi & Hv & Hlog & _ & _ & Hone).
  split; [exact Hc|]. split; [exact Hi|]. split; [exact Hv|].
  split; [rewrite Hlog; vm_compute; reflexivity|].
  split; [rewrite Hlog; vm_compute; reflexivity|].
  split; [rewrite Hlog; vm_compute; reflexivity|].
  assert (Hreach : reachable 400 store_S1).
  { apply (reach_later _ 100); [apply reachable_S1|lia]. }
  specialize (Hone Hreach). apply Forall_cons in Hone as [Hfounded _]. exact Hfounded.
Defined.

(** *** Replacing a live edge *)

Section Diff.
Context (p : TemporalEdge) (url : string) (T1 T2 : Z) (old : Edge).

Local Abbreviation s := (source p).
Local Abbreviation r := (relation p).
Local Abbreviation t := (target p).
Local Abbreviation here := (live_between (source p) (relation p) (target p)).
Local Abbreviation diff log :=
  (map (fun e => if here e then close T2 e else e) log ++ [new_edge url T2 p]).





End Diff.






End StoreProps.

(** ** Properties of the orchestrator *)

Module OrchestratorProps.

Import Models GraphStore Orchestrator Scenarios.

(** C3: when the stored document hash of [u] is the hash of the freshly
    scraped content, [process_url u] ends in [unchanged_verified] and
    reports as [edges_updated] the number of live edges of [u]; each of
    those edges, and no other, gets one more verification at [now]; the
    document state is rewritten with the hash at [now]; neither the extractor nor
    [upsert_bundle] is called; and the result reports no created edge, the
    entities are the same and the edge log has the same length. *)
Theorem unchanged_content_is_verified (c : Components) (now : Z)
    (u content hash : string) (st : Store) :
  get_document_state u st = Some hash ->
  scrape_and_hash c u = inr (content, hash) ->
  let '(r, st', calls) := process_url c now u st in
  status r = "unchanged_verified"
  /\ reason r = Some "content_unchanged"
  /\ outcome r =
       UnchangedVerified (length (filter (fun e => live_from u e = true) (edge_log st)))
  /\ edge_log st' =
       map (fun e => if live_from u e then verify u now e else e) (edge_log st)
  /\ Forall2 (fun e e' =>
                if live_from u e
                then e_verification_count e' = S (e_verification_count e)
                     /\ e_last_verified e' = now
                else e' = e)
             (edge_log st) (edge_log st')
  /\ documents st' !! u = Some {| content_hash := hash; last_checked := now |}
  /\ get_document_state u st' = Some hash
  /\ Forall (fun call => ~ extracts_or_upserts call) calls
  /\ edges_created (reported r) = 0
  /\ entities st' = entities st
  /\ length (edge_log st') = length (edge_log st).
Proof.
  intros Hstate Hscrape. unfold process_url. rewrite Hscrape, Hstate.
  rewrite bool_decide_eq_true_2 by done. simpl.
  split; [done|]. split; [done|]. split; [done|]. split; [done|].
  split.
  { induction (edge_log st) as [|e log IH]; simpl; constructor; [|exact IH].
    by destruct (live_from u e). }
  split.
  { apply lookup_insert_eq. }
  split.
  { unfold get_document_state. simpl. by rewrite lookup_insert_eq. }
  split.
  { repeat constructor; simpl; tauto. }
  split; [done|]. split; [done|].
  by rewrite length_map.
Qed.

(** Scenario S3: the page of S1 scraped again, unchanged. *)
Lemma unchanged_content_is_verified_witness :
  let '(r, st', calls) := process_url unchanged_page 500 example_url store_S3 in
  status r = "unchanged_verified"
  /\ outcome r = UnchangedVerified 1
  /\ map e_verification_count (edge_log st') = [2%nat]
  /\ map e_last_verified (edge_log st') = [500%Z]
  /\ Forall (fun call => ~ extracts_or_upserts call) calls
  /\ entities st' = entities store_S3.
Proof.
  pose proof (unchanged_content_is_verified unchanged_page 500 example_url
                "markdown content" "hash123" store_S3 eq_refl eq_refl) as H.
  destruct (process_url unchanged_page 500 example_url store_S3) as [[r st'] calls].
  destruct H as (Hstatus & _ & Houtcome & Hlog & _ & _ & _ & Hcalls & _ & Hents & _).
  split; [exact Hstatus|]. split; [exact Houtcome|].
  split; [by rewrite Hlog|]. split; [by rewrite Hlog|].
  split; [exact Hcalls|exact Hents].
Defined.

End OrchestratorProps.

(** ** Further properties of the question-to-query helper *)

Module EngineProps.

Import QueryEngine Texts StrFacts EntityProps.

(** *** Words and texts *)

Lemma str_all_append (p : ascii -> bool) (a b : string) :
  str_all p (a +:+ b) = str_all p a && str_all p b.
Proof.
  induction a as [|x a IH]; [done|].
  rewrite append_cons. simpl. rewrite IH. by rewrite andb_assoc.
Qed.

Lemma str_all_impl (p q : ascii -> bool) (s : string) :
  (forall c, p c = true -> q c = true) -> str_all p s = true -> str_all q s = true.
Proof.
  intros Hpq. induction s as [|c s IH]; [done|]. simpl.
  rewrite !andb_true_iff. intros [Hc Hs]. auto.
Qed.

(** The words [split] gives are not empty and hold no whitespace. *)
Lemma split_from_words (s cur : string) :
  Py.str_exists Py.c_isspace cur = false ->
  Forall (fun w => w <> EmptyString /\ Py.str_exists Py.c_isspace w = false)
         (Py.split_from cur s).
Proof.
  revert cur. induction s as [|c s IH]; intros cur Hcur; simpl.
  - destruct cur; [constructor|]. constructor; [done|constructor].
  - destruct (Py.c_isspace c) eqn:Hc.
    + destruct cur; simpl; [by apply IH|].
      constructor; [done|]. by apply IH.
    + apply IH. rewrite str_exists_append, Hcur. simpl. by rewrite Hc.
Qed.

Lemma split_words (s : string) :
  Forall (fun w => w <> EmptyString /\ Py.str_exists Py.c_isspace w = false) (Py.split s).
Proof. by apply split_from_words. Qed.

(** Cleaning a word without whitespace leaves word characters only. *)
Lemma strip_nonword_word (w : string) :
  Py.str_exists Py.c_isspace w = false -> str_all Py.c_isword (Py.strip_nonword w) = true.
Proof.
  induction w as [|c w IH]; [done|]. simpl.
  intros H. apply orb_false_iff in H as [Hc Hw].
  unfold Py.strip_nonword in *. simpl. rewrite Hc, orb_false_r.
  destruct (Py.c_isword c) eqn:Hword; simpl; [rewrite Hword|]; auto.
Qed.

Lemma tokens_clean (question : string) : Forall clean_word (tokens question).
Proof.
  apply Forall_forall. intros w Hw. unfold tokens in Hw.
  apply list_elem_of_filter in Hw as [Ht Hw].
  apply list_elem_of_fmap in Hw as (w0 & -> & Hw0).
  pose proof (split_words question) as Hall. rewrite Forall_forall in Hall.
  destruct (Hall w0 Hw0) as [_ Hspace].
  split; [by apply truthy_nonempty|by apply strip_nonword_word].
Qed.

(** The words of a phrase are words of the question. *)
Lemma phrase_words (question : string) (g : list string) (w : string) :
  g ∈ phrases question -> w ∈ g ->
  w ∈ tokens question /\ qualifies w = true.
Proof.
  intros Hg Hw. unfold phrases in Hg.
  apply list_elem_of_filter in Hg as [_ Hg].
  apply list_elem_of_fmap in Hg as (g0 & -> & Hg0).
  apply list_elem_of_filter in Hw as [Hq Hw]. split; [|done].
  assert (Hc : w ∈ concat (runs (fun w => negb (capitalised w)) (tokens question)))
    by (by apply (elem_of_piece w g0)).
  rewrite concat_runs in Hc. by apply list_elem_of_filter in Hc as [_ Hc].
Qed.

Lemma phrase_nonempty (question : string) (g : list string) :
  g ∈ phrases question -> g <> [].
Proof. intros Hg. unfold phrases in Hg. by apply list_elem_of_filter in Hg as [Hne _]. Qed.

Lemma phrase_clean (question : string) (g : list string) :
  g ∈ phrases question -> Forall clean_word g.
Proof.
  intros Hg. apply Forall_forall. intros w Hw.
  destruct (phrase_words question g w Hg Hw) as [Hin _].
  pose proof (tokens_clean question) as Hall. rewrite Forall_forall in Hall. auto.
Qed.

Lemma join_chars (p : ascii -> bool) (ws : list string) :
  p " "%char = true -> Forall (fun w => str_all p w = true) ws ->
  str_all p (Py.join " " ws) = true.
Proof.
  intros Hsp. induction 1 as [|w ws Hw Hws IH]; [done|].
  destruct ws as [|w' ws']; [done|].
  change (Py.join " " (w :: w' :: ws')) with (w +:+ " " +:+ Py.join " " (w' :: ws')).
  rewrite !str_all_append, Hw, IH. simpl. by rewrite Hsp.
Qed.

Lemma entities_chars (question : string) :
  Forall (fun e => str_all (fun c => Py.c_isword c || is_space c) e = true)
         (_extract_entities_from_question question).
Proof.
  rewrite extract_is_phrases. apply Forall_fmap, Forall_forall. intros g Hg. simpl.
  apply join_chars; [done|].
  eapply Forall_impl; [exact (phrase_clean question g Hg)|]. intros w [_ Hw]. simpl.
  eapply str_all_impl; [|exact Hw]. intros c Hc. by rewrite Hc.
Qed.

(** X1: every entity that [_extract_entities_from_question] returns is
    one or more cleaned words joined by single spaces, each word not
    empty and made of letters, digits and underscores: no punctuation and
    no whitespace other than those single spaces are left in it. *)
Theorem entities_are_clean_words (question : string) :
  Forall (fun e =>
            (exists ws, ws <> [] /\ Forall clean_word ws /\ e = Py.join " " ws)
            /\ str_all (fun c => Py.c_isword c || is_space c) e = true)
         (_extract_entities_from_question question).
Proof.
  rewrite extract_is_phrases. apply Forall_forall. intros e He.
  apply list_elem_of_fmap in He as (g & -> & Hg).
  pose proof (phrase_clean question g Hg) as Hclean.
  split.
  - exists g. split; [by apply (phrase_nonempty question)|]. by split.
  - pose proof (entities_chars question) as Hall.
    rewrite extract_is_phrases, Forall_forall in Hall.
    apply Hall, list_elem_of_fmap. by exists g.
Qed.

(** *** The name pattern *)

Ltac each_char c :=
  destruct c as [[] [] [] [] [] [] [] []]; vm_compute; try done; auto.

Lemma word_char_plain (c : ascii) :
  Py.c_isword c = true ->
  Py.re_special c = false /\ (Py.ord c =? 92)%Z = false /\ pattern_char c = true
  /\ Py.c_isspace c = false.
Proof. each_char c. Qed.

Lemma space_char (c : ascii) :
  is_space c = true -> c = " "%char /\ Py.c_isword c = false.
Proof. each_char c. Qed.

Lemma quote_char (c : ascii) :
  is_quote c = true ->
  pattern_char c = false /\ is_space c = false /\ (Py.ord c =? 92)%Z = false.
Proof. each_char c. Qed.

Lemma escapes_ok_append (a b : string) (esc : bool) :
  escapes_ok esc a = true -> escapes_ok false b = true ->
  escapes_ok esc (a +:+ b) = true.
Proof.
  revert esc. induction a as [|c a IH]; intros esc Ha Hb.
  - destruct esc; [discriminate Ha|exact Hb].
  - rewrite append_cons. simpl in *. destruct esc.
    + apply andb_true_iff in Ha as [-> Ha]. simpl. by apply IH.
    + destruct (Py.ord c =? 92)%Z; [by apply IH|].
      apply andb_true_iff in Ha as [-> Ha]. simpl. by apply IH.
Qed.

Lemma escapes_ok_no_quote (s : string) (esc : bool) :
  escapes_ok esc s = true -> Py.str_exists is_quote s = false.
Proof.
  revert esc. induction s as [|c s IH]; intros esc H; [done|].
  simpl in *. destruct (is_quote c) eqn:Hq.
  - destruct (quote_char c Hq) as (Hp & Hs & Hb). rewrite Hp, Hs, Hb in H.
    by destruct esc.
  - simpl. destruct esc.
    + apply andb_true_iff in H as [_ H]. by apply (IH false).
    + destruct (Py.ord c =? 92)%Z; [by apply (IH true)|].
      apply andb_true_iff in H as [_ H]. by apply (IH false).
Qed.

(** Escaping an entity puts a backslash before each of its spaces and
    nothing else. *)
Lemma re_escape_entity (e : string) :
  str_all (fun c => Py.c_isword c || is_space c) e = true ->
  escapes_ok false (Py.re_escape e) = true.
Proof.
  induction e as [|c e IH]; [done|]. simpl.
  intros H. apply andb_true_iff in H as [Hc He]. specialize (IH He).
  destruct (Py.c_isword c) eqn:Hword.
  - destruct (word_char_plain c Hword) as (-> & Hb & Hp & _).
    simpl. by rewrite Hb, Hp.
  - simpl in Hc. destruct (space_char c Hc) as [-> _]. exact IH.
Qed.

Lemma join_patterns_ok (ps : list string) :
  Forall (fun p => escapes_ok false p = true) ps ->
  escapes_ok false (Py.join "|" ps) = true.
Proof.
  induction 1 as [|p ps Hp Hps IH]; [done|].
  destruct ps as [|p' ps']; [done|].
  change (Py.join "|" (p :: p' :: ps')) with (p +:+ "|" +:+ Py.join "|" (p' :: ps')).
  apply escapes_ok_append; [done|]. by apply (escapes_ok_append "|").
Qed.

(** X2: the name pattern that [generate_cypher_from_question] splices
    between single quotes into the founder and the general query holds no
    quote character, whatever the question: it is made of word
    characters, of the fixed texts [(?i).*] and [|], and of spaces each
    behind one backslash, a backslash standing nowhere else. *)
Theorem name_pattern_has_no_quote (question : string) :
  let entity_pattern := entity_pattern_of (_extract_entities_from_question question) in
  escapes_ok false entity_pattern = true
  /\ Py.str_exists is_quote entity_pattern = false.
Proof.
  cbv zeta.
  assert (Hok : escapes_ok false
                  (entity_pattern_of (_extract_entities_from_question question)) = true).
  { unfold entity_pattern_of. apply join_patterns_ok, Forall_fmap.
    eapply Forall_impl; [apply entities_chars|]. intros e He. cbv beta in *.
    apply (escapes_ok_append "(?i).*"); [done|].
    apply escapes_ok_append; [by apply re_escape_entity|done]. }
  split; [exact Hok|]. by apply (escapes_ok_no_quote _ false).
Qed.

(** *** Questions without capitals *)

Lemma split_from_keeps (p : ascii -> bool) (s cur : string) :
  Py.str_exists p cur = false -> Py.str_exists p s = false ->
  Forall (fun w => Py.str_exists p w = false) (Py.split_from cur s).
Proof.
  revert cur. induction s as [|c s IH]; intros cur Hcur Hs; simpl.
  - destruct cur; [constructor|]. constructor; [done|constructor].
  - simpl in Hs. apply orb_false_iff in Hs as [Hc Hs].
    destruct (Py.c_isspace c).
    + destruct cur; simpl; [by apply IH|]. constructor; [done|]. by apply IH.
    + apply IH; [|done]. rewrite str_exists_append, Hcur. simpl. by rewrite Hc.
Qed.

Lemma str_filter_keeps (p f : ascii -> bool) (w : string) :
  Py.str_exists p w = false -> Py.str_exists p (Py.str_filter f w) = false.
Proof.
  induction w as [|c w IH]; [done|]. simpl.
  intros H. apply orb_false_iff in H as [Hc Hw].
  destruct (f c); simpl; [rewrite Hc|]; auto.
Qed.

Lemma not_capitalised (w : string) :
  Py.str_exists Py.c_isupper w = false -> capitalised w = false.
Proof.
  intros H. unfold capitalised, Py.isupper. rewrite H, orb_false_r.
  destruct w as [|c w]; [done|]. simpl in *. by apply orb_false_iff in H as [-> _].
Qed.

Lemma tokens_not_capitalised (question : string) :
  Py.str_exists Py.c_isupper question = false ->
  Forall (fun w => capitalised w = false) (tokens question).
Proof.
  intros H. apply Forall_forall. intros w Hw. unfold tokens in Hw.
  apply list_elem_of_filter in Hw as [_ Hw].
  apply list_elem_of_fmap in Hw as (w0 & -> & Hw0).
  apply not_capitalised, str_filter_keeps.
  pose proof (split_from_keeps Py.c_isupper question EmptyString eq_refl H) as Hall.
  rewrite Forall_forall in Hall. by apply Hall.
Qed.

(** Without a qualifying word there is no phrase. *)
Lemma no_phrases (question : string) :
  Forall (fun w => qualifies w = false) (tokens question) -> phrases question = [].
Proof.
  intros Hall. rewrite Forall_forall in Hall.
  destruct (phrases question) as [|g gs] eqn:Hph; [done|].
  assert (Hg : g ∈ phrases question) by (rewrite Hph; apply list_elem_of_here).
  pose proof (phrase_nonempty question g Hg) as Hne.
  destruct g as [|w g']; [done|].
  destruct (phrase_words question (w :: g') w Hg) as [Hin Hq]; [apply list_elem_of_here|].
  rewrite (Hall w Hin) in Hq. discriminate Hq.
Qed.

(** X3: a question without an uppercase letter names no entity, so the
    query made for it is one of the four queries that do not search by
    name (price, leader, change, or the default of five random
    relationships), whatever names the question holds in lowercase. *)
Theorem lowercase_question_names_nothing (question : string) :
  Py.str_exists Py.c_isupper question = false ->
  _extract_entities_from_question question = []
  /\ generate_cypher_from_question question ∈
       [price_query; leader_query; changed_query; default_query].
Proof.
  intros Hlow.
  assert (Hnone : _extract_entities_from_question question = []).
  { rewrite extract_is_phrases, no_phrases; [done|].
    eapply Forall_impl; [by apply tokens_not_capitalised|].
    intros w Hw. simpl in Hw. unfold qualifies. by rewrite Hw. }
  split; [exact Hnone|].
  unfold generate_cypher_from_question. rewrite Hnone. cbv zeta.
  generalize (Py.lower question) as ql. intros ql.
  destruct (Py.contains "how much" ql || Py.contains "cost" ql || Py.contains "price" ql);
    [QueryEngineProps.pick_template|].
  destruct (Py.contains "who" ql && (Py.contains "ceo" ql || Py.contains "founder" ql));
    [QueryEngineProps.pick_template|].
  destruct (Py.contains "what" ql && Py.contains "changed" ql);
    QueryEngineProps.pick_template.
Qed.

(** The question "who founded tesla?" is answered with the default
    query. *)
Lemma lowercase_question_names_nothing_witness :
  _extract_entities_from_question "who founded tesla?" = []
  /\ generate_cypher_from_question "who founded tesla?" ∈
       [price_query; leader_query; changed_query; default_query].
Proof.
  apply (lowercase_question_names_nothing "who founded tesla?"). reflexivity.
Defined.

(** *** Entities read again *)

Lemma split_from_word (w cur s : string) :
  Py.str_exists Py.c_isspace w = false ->
  Py.split_from cur (w +:+ s) = Py.split_from (cur +:+ w) s.
Proof.
  revert cur. induction w as [|c w IH]; intros cur Hw.
  - by rewrite append_nil_r.
  - simpl in Hw. apply orb_false_iff in Hw as [Hc Hw].
    rewrite append_cons. simpl. rewrite Hc, IH by done.
    by rewrite append_assoc.
Qed.

Lemma split_join (ws : list string) :
  Forall (fun w => w <> EmptyString /\ Py.str_exists Py.c_isspace w = false) ws ->
  Py.split (Py.join " " ws) = ws.
Proof.
  unfold Py.split. induction 1 as [|w ws [Hne Hw] Hws IH]; [done|].
  destruct ws as [|w' ws'].
  - change (Py.join " " [w]) with w.
    rewrite <- (append_nil_r w) at 1. rewrite split_from_word by done.
    simpl. by destruct w.
  - change (Py.join " " (w :: w' :: ws')) with (w +:+ " " +:+ Py.join " " (w' :: ws')).
    rewrite split_from_word by done.
    change (Py.split_from w (String " " (Py.join " " (w' :: ws'))) = w :: w' :: ws').
    destruct w as [|c w]; [done|].
    change (String c w :: Py.split_from EmptyString (Py.join " " (w' :: ws'))
            = String c w :: w' :: ws').
    by rewrite IH.
Qed.

Lemma clean_word_spaceless (w : string) :
  str_all Py.c_isword w = true -> Py.str_exists Py.c_isspace w = false.
Proof.
  induction w as [|c w IH]; [done|]. simpl.
  intros H. apply andb_true_iff in H as [Hc Hw].
  destruct (word_char_plain c Hc) as (_ & _ & _ & ->). auto.
Qed.

Lemma strip_clean_word (w : string) :
  str_all Py.c_isword w = true -> Py.strip_nonword w = w.
Proof.
  unfold Py.strip_nonword. induction w as [|c w IH]; [done|]. simpl.
  intros H. apply andb_true_iff in H as [Hc Hw]. by rewrite Hc, IH.
Qed.

Lemma tokens_join (ws : list string) :
  Forall clean_word ws -> tokens (Py.join " " ws) = ws.
Proof.
  intros Hall. unfold tokens. rewrite split_join.
  2: { eapply Forall_impl; [exact Hall|]. intros w [Hne Hw].
       split; [done|by apply clean_word_spaceless]. }
  induction Hall as [|w ws [Hne Hw] Hws IH]; [done|].
  simpl map. rewrite strip_clean_word by done.
  rewrite filter_cons_True by (by destruct w). by rewrite IH.
Qed.

Lemma runs_uncut {A : Type} (brk : A -> bool) (l : list A) :
  Forall (fun x => brk x = false) l -> runs brk l = [l].
Proof.
  induction 1 as [|x l Hx Hl IH]; [done|]. simpl. by rewrite Hx, IH.
Qed.

Lemma filter_all {A : Type} (p : A -> bool) (l : list A) :
  Forall (fun x => p x = true) l -> filter (fun x => p x = true) l = l.
Proof.
  induction 1 as [|x l Hx Hl IH]; [done|]. by rewrite filter_cons_True, IH.
Qed.

(** X4: an entity that [_extract_entities_from_question] found in a
    question is found again, whole and alone, when the entity itself is
    the question. *)
Theorem entity_is_extracted_from_itself (question e : string) :
  e ∈ _extract_entities_from_question question ->
  _extract_entities_from_question e = [e].
Proof.
  rewrite (extract_is_phrases question). intros He.
  apply list_elem_of_fmap in He as (g & -> & Hg).
  pose proof (phrase_clean question g Hg) as Hclean.
  pose proof (phrase_nonempty question g Hg) as Hne.
  assert (Hq : Forall (fun w => qualifies w = true) g).
  { apply Forall_forall. intros w Hw. by destruct (phrase_words question g w Hg Hw). }
  rewrite extract_is_phrases. unfold phrases. rewrite tokens_join by done.
  rewrite runs_uncut.
  2: { eapply Forall_impl; [exact Hq|]. intros w Hw. simpl in *.
       unfold qualifies in Hw. by apply andb_true_iff in Hw as [-> _]. }
  simpl map. rewrite filter_all by done.
  by rewrite filter_cons_True by done.
Qed.

(** The entity of "Who founded Tesla Motors?". *)
Lemma entity_is_extracted_from_itself_witness :
  _extract_entities_from_question "Tesla Motors" = ["Tesla Motors"].
Proof.
  apply (entity_is_extracted_from_itself "Who founded Tesla Motors?").
  vm_compute. apply list_elem_of_here.
Defined.

(** *** Answers *)

(** X5: [_format_answer] reads at most the first three records, and
    only the first unless the question holds both "what" and "changed":
    the records after them never show in the answer. *)
Theorem answer_reads_first_records (question : string) (records : list Py.record) :
  _format_answer question records = _format_answer question (take 3 records)
  /\ (answers_change question = false ->
      _format_answer question records = _format_answer question (take 1 records)).
Proof.
  split.
  - destruct records as [|r1 [|r2 [|r3 rest]]]; reflexivity.
  - unfold answers_change. cbv zeta. intros Hchange.
    destruct records as [|r1 rest]; [reflexivity|].
    change (take 1 (r1 :: rest)) with [r1].
    unfold _format_answer. cbv zeta. rewrite Hchange. reflexivity.
Qed.

Lemma answer_reads_first_records_witness :
  _format_answer "Who is the CEO of OpenAI?"
    [founder_record (Py.VStr "sam") "CEO_OF" (Py.VStr "openai") Py.VNone Py.VNone;
     founder_record (Py.VStr "greg") "CEO_OF" (Py.VStr "openai") Py.VNone Py.VNone]
  = _format_answer "Who is the CEO of OpenAI?"
      [founder_record (Py.VStr "sam") "CEO_OF" (Py.VStr "openai") Py.VNone Py.VNone].
Proof.
  apply (answer_reads_first_records "Who is the CEO of OpenAI?"
           [founder_record (Py.VStr "sam") "CEO_OF" (Py.VStr "openai") Py.VNone Py.VNone;
            founder_record (Py.VStr "greg") "CEO_OF" (Py.VStr "openai") Py.VNone Py.VNone]).
  reflexivity.
Defined.

Lemma spaced_lower_text (record : Py.record) (default : string) :
  relation_is_text record ->
  exists rel, spaced_lower (Py.record_get record "relation" (Py.VStr default)) = inr rel.
Proof. intros H. destruct (H default) as (s & ->). by eexists. Qed.

Lemma change_lines_text (records : list Py.record) :
  Forall relation_is_text records ->
  exists changes, for_each change_line records = inr changes.
Proof.
  induction 1 as [|r records Hr Hrs (changes & IH)]; [by eexists|].
  assert (Hline : exists line, change_line r = inr line).
  { unfold change_line. cbv zeta.
    destruct (spaced_lower_text r "relates to" Hr) as (rel & ->). by eexists. }
  destruct Hline as (line & Hline).
  change (for_each change_line (r :: records))
    with (y ← change_line r; ys ← for_each change_line records; mret (y :: ys)).
  rewrite Hline. cbn [mbind Py.raising_bind]. rewrite IH. by eexists.
Qed.

(** X6: [_format_answer] returns an answer, and raises nothing, whenever
    each of the first three records has a string for its relation or no
    relation at all. *)
Theorem answer_of_text_relations (question : string) (records : list Py.record) :
  Forall relation_is_text (take 3 records) ->
  exists answer, _format_answer question records = inr answer.
Proof.
  intros Hall. destruct records as [|first rest]; [by eexists|].
  assert (Hfirst : relation_is_text first).
  { by apply Forall_cons in Hall as [Hfirst _]. }
  unfold _format_answer. cbv zeta.
  destruct (_ || _ || _); [by eexists|].
  destruct (_ && _).
  { destruct (spaced_lower_text first "is associated with" Hfirst) as (rel & ->).
    by eexists. }
  destruct (_ && _).
  { destruct (change_lines_text _ Hall) as (changes & ->). by eexists. }
  destruct (spaced_lower_text first "relates to" Hfirst) as (rel & ->). by eexists.
Qed.

Lemma answer_of_text_relations_witness :
  exists answer,
    _format_answer "What changed?"
      [about_record (Py.VStr "tesla") "LOCATED_IN" (Py.VStr "austin") Py.VNone Py.VNone;
       [("source", Py.VStr "x")]] = inr answer.
Proof.
  apply (answer_of_text_relations "What changed?").
  repeat constructor; intros default; eexists; reflexivity.
Defined.

(** X7: outside a price question, a first record whose relation is there
    and is not a string makes [_format_answer] raise the attribute error
    of [lower], and [execute_query_with_path] answer with that error:
    "Error: 'T' object has no attribute 'lower'", with an empty path and
    no results. *)
Theorem answer_of_other_relation (session_run : session) (question : string)
    (timestamp : option string) (first : Py.record) (rest : list Py.record)
    (relation : Py.pyval) :
  asks_price question = false ->
  (forall default, Py.record_get first "relation" default = relation) ->
  (forall s, relation <> Py.VStr s) ->
  session_run (generate_cypher_from_question question) = inr (first :: rest) ->
  let msg := "'" +:+ Py.type_name relation +:+ "' object has no attribute 'lower'" in
  _format_answer question (first :: rest) = Py.raise msg
  /\ execute_query_with_path session_run question timestamp = error_response msg.
Proof.
  intros Hprice Hrel Htext Hrun msg.
  assert (Hlower : spaced_lower relation = Py.raise msg).
  { unfold spaced_lower. destruct relation; try reflexivity. by destruct (Htext s). }
  assert (Hanswer : _format_answer question (first :: rest) = Py.raise msg).
  { unfold asks_price in Hprice. cbv zeta in Hprice.
    unfold _format_answer. cbv zeta. rewrite Hprice.
    destruct (_ && _); [by rewrite Hrel, Hlower|].
    destruct (_ && _); [|by rewrite Hrel, Hlower].
    change (take 3 (first :: rest)) with (first :: take 2 rest).
    change (for_each change_line (first :: take 2 rest))
      with (y ← change_line first; ys ← for_each change_line (take 2 rest);
            mret (y :: ys)).
    assert (Hline : change_line first = Py.raise msg).
    { unfold change_line. cbv zeta. by rewrite Hrel, Hlower. }
    by rewrite Hline. }
  split; [exact Hanswer|].
  unfold execute_query_with_path, try_execute_query. rewrite Hrun.
  cbn [mbind Py.raising_bind]. by rewrite Hanswer.
Qed.

Lemma answer_of_other_relation_witness :
  execute_query_with_path
    (fun _ => inr [[("source", Py.VStr "a"); ("relation", Py.VNone)]])
    "What is Tesla?" None
  = error_response "'NoneType' object has no attribute 'lower'".
Proof.
  apply (answer_of_other_relation
           (fun _ => inr [[("source", Py.VStr "a"); ("relation", Py.VNone)]])
           "What is Tesla?" None [("source", Py.VStr "a"); ("relation", Py.VNone)] []
           Py.VNone); try reflexivity. intros s. discriminate.
Defined.

(** *** Queries and answers that do not fit together *)

Lemma named_query (question : string) :
  _extract_entities_from_question question <> [] ->
  let entity_pattern := entity_pattern_of (_extract_entities_from_question question) in
  (asks_founder question = true ->
   generate_cypher_from_question question = founder_query entity_pattern)
  /\ (asks_founder question = false -> asks_about question = true ->
      generate_cypher_from_question question = about_query entity_pattern).
Proof.
  intros Hne. unfold asks_founder, asks_about, generate_cypher_from_question. cbv zeta.
  destruct (_extract_entities_from_question question) as [|e es]; [done|].
  split.
  - by intros ->.
  - by intros -> ->.
Qed.

Lemma no_price_column (first : Py.record) (default : Py.pyval) :
  map fst first = about_columns \/ map fst first = founder_columns ->
  Py.record_get first "product" default = default
  /\ Py.record_get first "price" default = default.
Proof.
  intros [H|H];
    destruct first as [|[k1 v1] [|[k2 v2] [|[k3 v3] [|[k4 v4] [|[k5 v5] [|? ?]]]]]];
    try discriminate H; injection H as -> -> -> -> ->; by split.
Qed.

(** X8: a question that names an entity and holds a price word ("how
    much", "cost", "price") together with "what", "tell" or "about", or
    with "who" and "founded", "created" or "started", is looked up with
    the general or the founder query, whose records have no [product]
    and no [price] column; the answer made from any such records is
    "Unknown costs Unknown." *)
Theorem price_question_with_entity (question : string) (first : Py.record)
    (rest : list Py.record) :
  _extract_entities_from_question question <> [] ->
  asks_price question = true ->
  asks_founder question || asks_about question = true ->
  map fst first = about_columns \/ map fst first = founder_columns ->
  let entity_pattern := entity_pattern_of (_extract_entities_from_question question) in
  generate_cypher_from_question question ∈
    [founder_query entity_pattern; about_query entity_pattern]
  /\ _format_answer question (first :: rest) = inr "Unknown costs Unknown.".
Proof.
  intros Hne Hprice Hnamed Hcols entity_pattern. split.
  - destruct (named_query question Hne) as [Hfounder Habout].
    destruct (asks_founder question) eqn:Hf.
    + rewrite Hfounder by done. apply list_elem_of_here.
    + rewrite Habout by done. apply list_elem_of_further, list_elem_of_here.
  - unfold asks_price in Hprice. cbv zeta in Hprice.
    unfold _format_answer. cbv zeta. rewrite Hprice.
    by destruct (no_price_column first (Py.VStr "Unknown") Hcols) as [-> ->].
Qed.

(** "What is Costco?" holds the price word "cost". *)
Lemma price_question_with_entity_witness :
  generate_cypher_from_question "What is Costco?" ∈
    [founder_query "(?i).*Costco.*"; about_query "(?i).*Costco.*"]
  /\ _format_answer "What is Costco?"
       [about_record (Py.VStr "costco") "LOCATED_IN" (Py.VStr "issaquah")
          (Py.VOpaque "float" "0.9" "0.9") (Py.VList [])]
     = inr "Unknown costs Unknown.".
Proof.
  apply (price_question_with_entity "What is Costco?"
           (about_record (Py.VStr "costco") "LOCATED_IN" (Py.VStr "issaquah")
              (Py.VOpaque "float" "0.9" "0.9") (Py.VList [])) []).
  - vm_compute. discriminate.
  - reflexivity.
  - reflexivity.
  - left. reflexivity.
Defined.

Lemma change_lines_about (rows : list (Py.pyval * string * Py.pyval * Py.pyval * Py.pyval)) :
  exists changes,
    for_each change_line (map about_row rows) = inr changes
    /\ map (fun change => "- " +:+ change) changes = map changed_recently rows.
Proof.
  induction rows as [|[[[[source relation] target] confidence] path_nodes] rows
                       (changes & IH & Hlines)].
  - by exists [].
  - simpl map.
    change (for_each change_line (about_record source relation target confidence path_nodes
                                    :: map about_row rows))
      with (y ← change_line (about_record source relation target confidence path_nodes);
            ys ← for_each change_line (map about_row rows); mret (y :: ys)).
    rewrite IH. eexists. split; [reflexivity|]. simpl map. by rewrite Hlines.
Qed.

Lemma about_query_live (entity_pattern : string) :
  Py.contains "WHERE r.valid_to IS NULL" (about_query entity_pattern) = true.
Proof. vm_compute. reflexivity. Qed.

(** X9: a question that names an entity and holds "what" and "changed"
    (and is no price, founder or leader question) is looked up with the
    general query, which selects the live edges, and answered as a list
    of changes: the first three live edges of the entity, each said to
    have "changed recently". *)
Theorem change_question_with_entity (question : string)
    (rows : list (Py.pyval * string * Py.pyval * Py.pyval * Py.pyval)) :
  _extract_entities_from_question question <> [] ->
  answers_change question = true ->
  asks_price question = false ->
  asks_founder question = false ->
  answers_leader question = false ->
  rows <> [] ->
  let cypher_query := generate_cypher_from_question question in
  cypher_query = about_query (entity_pattern_of (_extract_entities_from_question question))
  /\ Py.contains "WHERE r.valid_to IS NULL" cypher_query = true
  /\ _format_answer question (map about_row rows)
     = inr ("Recent changes:" +:+ Py.nl +:+
            Py.join Py.nl (map changed_recently (take 3 rows))).
Proof.
  intros Hne Hchange Hprice Hfounder Hleader Hrows cypher_query.
  assert (Hquery : cypher_query =
            about_query (entity_pattern_of (_extract_entities_from_question question))).
  { destruct (named_query question Hne) as [_ Habout]. apply Habout; [done|].
    unfold answers_change, asks_about in *. cbv zeta in *.
    by apply andb_true_iff in Hchange as [-> _]. }
  split; [exact Hquery|]. split.
  { rewrite Hquery. apply about_query_live. }
  unfold asks_price, answers_leader, answers_change in *. cbv zeta in *.
  destruct rows as [|row rows]; [done|]. simpl map at 1.
  unfold _format_answer. cbv zeta. rewrite Hprice, Hleader, Hchange.
  rewrite <- (fmap_cons about_row), <- fmap_take.
  change (about_row <$> take 3 (row :: rows)) with (map about_row (take 3 (row :: rows))).
  destruct (change_lines_about (take 3 (row :: rows))) as (changes & -> & <-).
  reflexivity.
Qed.

Lemma change_question_with_entity_witness :
  let cypher_query := generate_cypher_from_question "What changed at Tesla?" in
  cypher_query = about_query "(?i).*Tesla.*"
  /\ Py.contains "WHERE r.valid_to IS NULL" cypher_query = true
  /\ _format_answer "What changed at Tesla?"
       [about_record (Py.VStr "tesla") "LOCATED_IN" (Py.VStr "austin") Py.VNone Py.VNone]
     = inr ("Recent changes:" +:+ Py.nl +:+ "- tesla located in austin (changed recently)").
Proof.
  apply (change_question_with_entity "What changed at Tesla?"
           [(Py.VStr "tesla", "LOCATED_IN", Py.VStr "austin", Py.VNone, Py.VNone)]);
    try reflexivity.
  - vm_compute. discriminate.
  - discriminate.
Defined.

(** X10: a question that names an entity and holds "who" with "created"
    or "started" (but none of "ceo", "founder", "founded", a price word,
    or "what" with "changed") is looked up with the founder query, whose
    records name the person and the company; the answer reads the
    [source] and [target] they do not have and is
    "Unknown <relation> Unknown." *)
Theorem creator_question_with_entity (question : string)
    (person : Py.pyval) (relation : string) (company confidence path_nodes : Py.pyval)
    (rest : list Py.record) :
  _extract_entities_from_question question <> [] ->
  asks_founder question = true ->
  answers_leader question = false ->
  asks_price question = false ->
  answers_change question = false ->
  generate_cypher_from_question question
    = founder_query (entity_pattern_of (_extract_entities_from_question question))
  /\ _format_answer question
       (founder_record person relation company confidence path_nodes :: rest)
     = inr ("Unknown " +:+ Py.replace "_" " " (Py.lower relation) +:+ " Unknown.").
Proof.
  intros Hne Hfounder Hleader Hprice Hchange. split.
  - destruct (named_query question Hne) as [Hquery _]. by apply Hquery.
  - unfold asks_price, answers_leader, answers_change in *. cbv zeta in *.
    unfold _format_answer. cbv zeta. by rewrite Hprice, Hleader, Hchange.
Qed.

Lemma creator_question_with_entity_witness :
  generate_cypher_from_question "Who created Python?" = founder_query "(?i).*Python.*"
  /\ _format_answer "Who created Python?"
       [founder_record (Py.VStr "guido") "CREATED_BY" (Py.VStr "python")
          Py.VNone Py.VNone]
     = inr "Unknown created by Unknown.".
Proof.
  apply (creator_question_with_entity "Who created Python?"); try reflexivity.
  vm_compute. discriminate.
Defined.

(** *** The entities in the query *)

Lemma startswith_append (n b : string) : Py.startswith n (n +:+ b) = true.
Proof.
  induction n as [|c n IH]; [by destruct b|].
  rewrite append_cons. simpl. by rewrite bool_decide_eq_true_2.
Qed.

Lemma contains_here (n b : string) : Py.contains n (n +:+ b) = true.
Proof.
  destruct (n +:+ b) eqn:H; simpl; rewrite <- H, startswith_append; done.
Qed.

Lemma contains_later (n a b : string) :
  Py.contains n b = true -> Py.contains n (a +:+ b) = true.
Proof.
  intros H. induction a as [|c a IH]; [done|].
  rewrite append_cons. simpl. rewrite IH. apply orb_true_r.
Qed.

Lemma contains_middle (n a b : string) : Py.contains n (a +:+ n +:+ b) = true.
Proof. apply contains_later, contains_here. Qed.

Lemma startswith_prefix (n s : string) :
  Py.startswith n s = true -> exists b, s = n +:+ b.
Proof.
  revert s. induction n as [|c n IH]; intros s H; [by exists s|].
  destruct s as [|c' s]; [done|]. simpl in H.
  apply andb_true_iff in H as [Hc H]. apply bool_decide_eq_true in Hc as <-.
  destruct (IH s H) as (b & ->). by exists b.
Qed.

Lemma contains_parts (n s : string) :
  Py.contains n s = true -> exists a b, s = a +:+ n +:+ b.
Proof.
  induction s as [|c s IH]; simpl; intros H.
  - rewrite orb_false_r in H. destruct (startswith_prefix _ _ H) as (b & Hb).
    by exists EmptyString, b.
  - apply orb_true_iff in H as [H|H].
    + destruct (startswith_prefix _ _ H) as (b & Hb). by exists EmptyString, b.
    + destruct (IH H) as (a & b & ->). by exists (String c a), b.
Qed.

Lemma contains_trans (n m s : string) :
  Py.contains n m = true -> Py.contains m s = true -> Py.contains n s = true.
Proof.
  intros Hnm Hms.
  destruct (contains_parts _ _ Hnm) as (a & b & ->).
  destruct (contains_parts _ _ Hms) as (a' & b' & ->).
  rewrite !append_assoc, <- (append_assoc a' a). apply contains_middle.
Qed.

Lemma contains_in_join (sep x : string) (l : list string) :
  x ∈ l -> Py.contains x (Py.join sep l) = true.
Proof.
  induction l as [|y l IH]; intros Hx; [by apply elem_of_nil in Hx|].
  destruct l as [|z l'].
  - apply list_elem_of_singleton in Hx as ->.
    rewrite <- (append_nil_r y) at 2. apply contains_here.
  - change (Py.join sep (y :: z :: l')) with (y +:+ sep +:+ Py.join sep (z :: l')).
    apply elem_of_cons in Hx as [->|Hx]; [apply contains_here|].
    apply contains_later, contains_later. by apply IH.
Qed.

Lemma pattern_in_named_query (entity_pattern : string) :
  Py.contains entity_pattern (founder_query entity_pattern) = true
  /\ Py.contains entity_pattern (about_query entity_pattern) = true.
Proof.
  split.
  - apply (contains_trans _ ("                  AND (target.name =~ '"
                             +:+ entity_pattern +:+ "')")).
    + apply contains_middle.
    + apply contains_in_join. QueryEngineProps.pick_template.
  - apply (contains_trans _ ("                  AND (source.name =~ '"
                             +:+ entity_pattern +:+ "' OR target.name =~ '"
                             +:+ entity_pattern +:+ "')")).
    + apply contains_middle.
    + apply contains_in_join. QueryEngineProps.pick_template.
Qed.

(** X21: when a question names entities and is looked up by name (it
    holds "who" with "founded", "created" or "started", or holds "what",
    "tell" or "about"), the query text holds, for every entity found, the
    pattern [(?i).*], the entity escaped by [re.escape], [.*]: each
    entity is searched for, without regard to case. *)
Theorem every_entity_is_searched (question e : string) :
  e ∈ _extract_entities_from_question question ->
  asks_founder question || asks_about question = true ->
  Py.contains ("(?i).*" +:+ Py.re_escape e +:+ ".*")
              (generate_cypher_from_question question) = true.
Proof.
  intros He Hnamed.
  assert (Hne : _extract_entities_from_question question <> []).
  { intros H. rewrite H in He. by apply elem_of_nil in He. }
  apply (contains_trans _ (entity_pattern_of (_extract_entities_from_question question))).
  { unfold entity_pattern_of. apply contains_in_join.
    apply list_elem_of_fmap. by exists e. }
  destruct (named_query question Hne) as [Hfounder Habout].
  destruct (pattern_in_named_query
              (entity_pattern_of (_extract_entities_from_question question)))
    as [Hf Ha].
  destruct (asks_founder question) eqn:Hasks.
  - by rewrite Hfounder.
  - by rewrite Habout.
Qed.

Lemma every_entity_is_searched_witness :
  Py.contains ("(?i).*" +:+ Py.re_escape "Tesla Motors" +:+ ".*")
              (generate_cypher_from_question "Who founded Tesla Motors?") = true.
Proof.
  apply every_entity_is_searched; [|reflexivity].
  vm_compute. apply list_elem_of_here.
Defined.

(** *** The shape of a response *)

(** The path of a response can be measured: [len(result.get("path", []))]
    does not raise. *)
Lemma path_is_sized (session_run : session) (question : string)
    (timestamp : option string) :
  exists path n,
    execute_query_with_path session_run question timestamp !! "path" = Some path
    /\ Py.py_len path = inr n.
Proof.
  unfold execute_query_with_path, try_execute_query.
  destruct (session_run (generate_cypher_from_question question))
    as [e|[|first_record rest]]; [by exists (Py.VList []), O..|].
  cbn [mbind Py.raising_bind].
  destruct (_format_answer question (first_record :: rest)) as [e|answer];
    [by exists (Py.VList []), O|].
  destruct (Py.py_len _) as [e|n] eqn:Hlen; [by exists (Py.VList []), O|].
  eexists _, n. split; [|exact Hlen]. reflexivity.
Qed.

(** X11: whatever the graph does, the record that
    [execute_query_with_path] returns has an ["answer"] that is a
    string, a ["path"] that has a length, and a list of ["results"],
    which is empty or holds one dictionary for each record of the
    lookup, in order. *)
Theorem response_shape (session_run : session) (question : string)
    (timestamp : option string) :
  let response := execute_query_with_path session_run question timestamp in
  (exists answer, response !! "answer" = Some (Py.VStr answer))
  /\ (exists path n, response !! "path" = Some path /\ Py.py_len path = inr n)
  /\ (exists results,
        response !! "results" = Some (Py.VList results)
        /\ (results = [] \/
            exists records,
              session_run (generate_cypher_from_question question) = inr records
              /\ results = map Py.VDict records)).
Proof.
  cbv zeta. split; [|split; [apply path_is_sized|]].
  - unfold execute_query_with_path, try_execute_query.
    destruct (session_run (generate_cypher_from_question question))
      as [e|[|first_record rest]]; [by eexists..|].
    cbn [mbind Py.raising_bind].
    destruct (_format_answer question (first_record :: rest)) as [e|answer];
      [by eexists|].
    destruct (Py.py_len _) as [e|n]; by eexists.
  - unfold execute_query_with_path, try_execute_query.
    destruct (session_run (generate_cypher_from_question question))
      as [e|[|first_record rest]] eqn:Hrun; [exists []; by split; [|left]..|].
    cbn [mbind Py.raising_bind].
    destruct (_format_answer question (first_record :: rest)) as [e|answer];
      [exists []; by split; [|left]|].
    destruct (Py.py_len _) as [e|n]; [exists []; by split; [|left]|].
    eexists. split; [reflexivity|]. right. by eexists.
Qed.

End EngineProps.

(** ** Properties of the application *)

Module AppProps.

Import App AppNotions.

(** A handler that ends by looking at what its calls gave keeps what the
    calls keep. *)
Ltac through_calls :=
  match goal with
  | |- kept ?a (?t).2 =>
      match t with
      | context [?m a] =>
          let H := fresh in
          assert (H : kept a (m a).2); [|by destruct (m a) as [[?|?] ?]]
      end
  end.

Section Kept.
Context {B M S X D : Type} (c : Components B M S X D).

Lemma kept_refl (a : App B M) : kept a a.
Proof. by repeat split. Qed.

Lemma kept_trans (a1 a2 a3 : App B M) : kept a1 a2 -> kept a2 a3 -> kept a1 a3.
Proof.
  intros (Hagent & Hstatus & Hmanager) (Hagent' & Hstatus' & Hmanager').
  split; [congruence|]. split; [congruence|]. auto.
Qed.

Lemma kept_with_backend (b : B) (a : App B M) : kept a (with_backend b a).
Proof. by repeat split. Qed.

(** A piece of a handler keeps the globals. *)
Local Abbreviation keeps m := (forall a : App B M, kept a (m a).2).

Lemma keeps_component {A : Type} (f : B -> (error + A) * B) : keeps (component f).
Proof.
  intros a. unfold component. destruct (f _) as [r b]. apply kept_with_backend.
Qed.

Lemma keeps_pure {A : Type} (r : error + A) : keeps (pure (B := B) (M := M) r).
Proof. intros a. apply kept_refl. Qed.

Lemma keeps_ret {A : Type} (x : A) : keeps (mret (M := call) x).
Proof. intros a. apply kept_refl. Qed.

Lemma keeps_bind {A C : Type} (m : call A) (k : A -> call C) :
  keeps m -> (forall x, keeps (k x)) -> keeps (m ≫= k).
Proof.
  intros Hm Hk a. unfold mbind, call_bind. specialize (Hm a).
  destruct (m a) as [[e|x] a']; [exact Hm|].
  eapply kept_trans; [exact Hm|]. apply Hk.
Qed.

Lemma keeps_get_graph_manager : keeps (get_graph_manager c).
Proof.
  intros a. unfold get_graph_manager.
  destruct (graph_manager a) as [m|] eqn:Hm; [apply kept_refl|].
  unfold mbind, call_bind, component.
  destruct (new_graph_manager c _) as [[e|m] b]; simpl.
  - apply kept_with_backend.
  - split; [done|]. split; [done|]. intros m0 H. congruence.
Qed.

Lemma keeps_len_of_item (v : Py.pyval) (key : string) :
  keeps (len_of_item (B := B) (M := M) v key).
Proof.
  unfold len_of_item. apply keeps_bind; [apply keeps_pure|].
  intros item. apply keeps_pure.
Qed.

Lemma kept_health (now : Z) (a : App B M) : kept a (health c now a).2.
Proof.
  unfold health. through_calls.
  apply keeps_bind; [apply keeps_get_graph_manager|]. intros manager.
  apply keeps_component.
Qed.

Lemma kept_get_graph_snapshot (timestamp : option string) (a : App B M) :
  kept a (get_graph_snapshot c timestamp a).2.
Proof.
  unfold get_graph_snapshot.
  pose proof (keeps_get_graph_manager a) as H.
  destruct (get_graph_manager c a) as [[e|manager] a1]; [exact H|].
  destruct (parse_timestamp c timestamp) as [http_error|dt]; [exact H|].
  apply (kept_trans a a1); [exact H|]. through_calls.
  apply keeps_bind; [apply keeps_component|]. intros snapshot.
  apply keeps_bind; [apply keeps_len_of_item|]. intros _.
  apply keeps_bind; [apply keeps_len_of_item|]. intros _.
  apply keeps_ret.
Qed.

Lemma kept_get_stats (now : Z) (a : App B M) : kept a (get_stats c now a).2.
Proof.
  unfold get_stats. through_calls.
  apply keeps_bind; [apply keeps_get_graph_manager|]. intros manager.
  apply keeps_bind; [apply keeps_component|]. intros snapshot.
  apply keeps_bind; [apply keeps_component|]. intros stale_urls.
  repeat (apply keeps_bind; [apply keeps_pure|]; intros ?).
  apply keeps_ret.
Qed.

Lemma kept_query_graph (question : string) (timestamp : option string) (a : App B M) :
  kept a (query_graph c question timestamp a).2.
Proof.
  unfold query_graph.
  pose proof (keeps_get_graph_manager a) as H.
  destruct (get_graph_manager c a) as [[e|manager] a1]; [exact H|].
  cbv zeta. apply (kept_trans a a1); [exact H|].
  destruct (Py.py_len _); apply kept_with_backend.
Qed.

(** The ingest keeps the agent and the manager; the status it leaves
    shows no work in progress, and is the one it found when there is no
    agent. *)
Lemma ingest_globals (url : string) (now1 now2 : Z) (a : App B M) :
  let a' := (ingest url now1 now2 a).2 in
  sentinel_agent a' = sentinel_agent a
  /\ graph_manager a' = graph_manager a
  /\ (sentinel_agent a = None -> a' = a)
  /\ (at_rest a -> at_rest a').
Proof.
  unfold ingest, Api.ingest_url. destruct a as [manager [agent|] w]; simpl.
  - destruct (Api.process_url agent url (Api.backend w)) as [[e|result] b2]; simpl.
    + repeat split; [done|]. intros _. by right.
    + repeat split; [done|]. intros _. by left.
  - destruct w. by repeat split.
Qed.

Lemma handle_globals (request : Request) (now1 now2 : Z) (a : App B M) :
  let a' := (handle c request now1 now2 a).2 in
  sentinel_agent a' = sentinel_agent a
  /\ (forall m, graph_manager a = Some m -> graph_manager a' = Some m)
  /\ (sentinel_agent a = None ->
      Api.system_status (world a') = Api.system_status (world a))
  /\ (at_rest a -> at_rest a').
Proof.
  assert (Hkept : forall a', kept a a' ->
            sentinel_agent a' = sentinel_agent a
            /\ (forall m, graph_manager a = Some m -> graph_manager a' = Some m)
            /\ (sentinel_agent a = None ->
                Api.system_status (world a') = Api.system_status (world a))
            /\ (at_rest a -> at_rest a')).
  { intros a' (Hagent & Hstatus & Hmanager). unfold at_rest. rewrite Hstatus. auto. }
  destruct request; cbn [handle answer snd]; try (apply Hkept, kept_refl).
  - apply Hkept, kept_health.
  - apply Hkept, kept_get_graph_snapshot.
  - apply Hkept, kept_get_stats.
  - destruct (ingest_globals url now1 now2 a) as (Hagent & Hmanager & Hnone & Hrest).
    split; [exact Hagent|]. split; [intros m Hm; by rewrite Hmanager|].
    split; [|exact Hrest]. intros H. by rewrite (Hnone H).
  - apply Hkept, kept_query_graph.
Qed.

Lemma run_globals (events : list (Event B)) :
  forall a : App B M,
    sentinel_agent (run c events a) = sentinel_agent a
    /\ (forall m, graph_manager a = Some m -> graph_manager (run c events a) = Some m)
    /\ (sentinel_agent a = None ->
        Api.system_status (world (run c events a)) = Api.system_status (world a))
    /\ (at_rest a -> at_rest (run c events a)).
Proof.
  induction events as [|event events IH]; intros a; [by repeat split|].
  change (run c (event :: events) a) with (run c events (step c a event)).
  assert (Hstep :
    sentinel_agent (step c a event) = sentinel_agent a
    /\ (forall m, graph_manager a = Some m -> graph_manager (step c a event) = Some m)
    /\ (sentinel_agent a = None ->
        Api.system_status (world (step c a event)) = Api.system_status (world a))
    /\ (at_rest a -> at_rest (step c a event))).
  { destruct event as [request now1 now2|change]; [apply handle_globals|].
    by repeat split. }
  destruct Hstep as (Hagent & Hmanager & Hnone & Hrest).
  destruct (IH (step c a event)) as (Hagent' & Hmanager' & Hnone' & Hrest').
  split; [congruence|]. split; [auto|]. split; [|auto].
  intros H. rewrite Hnone' by congruence. auto.
Qed.

End Kept.

(** X12: no request replaces the agent or an existing graph manager:
    after any requests, handled one after the other, and any changes of
    the world outside, the agent is the one (or none) that the startup
    left, and a graph manager, once made, is the one in use. *)
Theorem agent_and_manager_are_kept {B M S X D : Type} (c : Components B M S X D)
    (events : list (Event B)) (a : App B M) :
  sentinel_agent (run c events a) = sentinel_agent a
  /\ (forall m, graph_manager a = Some m -> graph_manager (run c events a) = Some m).
Proof. destruct (run_globals c events a) as (H1 & H2 & _). by split. Qed.



(** X14: without an agent every ingest request is refused, whatever was
    requested before: it is answered with the HTTP error 503 and changes
    nothing, and the status stays the one the application had. *)
Theorem ingest_stays_refused {B M S X D : Type} (c : Components B M S X D)
    (events : list (Event B)) (url : string) (now1 now2 : Z) (a : App B M) :
  sentinel_agent a = None ->
  handle c (PostIngest url) now1 now2 (run c events a)
  = (inl {| Api.status_code := 503; Api.detail := "Sentinel agent not initialized" |},
     run c events a)
  /\ get_status (run c events a) = get_status a.
Proof.
  intros Hnone. destruct (run_globals c events a) as (Hagent & _ & Hstatus & _).
  split; [|by apply Hstatus].
  rewrite Hnone in Hagent.
  destruct (run c events a) as [manager agent w]. simpl in Hagent. subst agent.
  by destruct w.
Qed.

Lemma ingest_stays_refused_witness :
  handle no_scraper (PostIngest "https://example.com") 5 6
    (run no_scraper [Handled GetHealth 1 1; Handled (PostQuery "What is Tesla?" None) 2 2]
       (initial 0 0))
  = (inl {| Api.status_code := 503; Api.detail := "Sentinel agent not initialized" |},
     run no_scraper [Handled GetHealth 1 1; Handled (PostQuery "What is Tesla?" None) 2 2]
       (initial 0 0))
  /\ get_status
       (run no_scraper [Handled GetHealth 1 1; Handled (PostQuery "What is Tesla?" None) 2 2]
          (initial 0 0))
     = get_status (initial (M := unit) 0 0).
Proof. apply ingest_stays_refused. reflexivity. Defined.

(** X15: when no scraper can be had at startup, [startup_event] still
    returns; it leaves the graph manager it made in place and no agent,
    so that afterwards every ingest request is answered with 503. *)
Theorem startup_without_scraper {B M S X D : Type} (c : Components B M S X D)
    (a a1 : App B M) (manager : M) (e : error) (b : B) :
  sentinel_agent a = None ->
  get_graph_manager c a = (inr manager, a1) ->
  get_scraper c (Api.backend (world a1)) = (inl e, b) ->
  let a' := startup_event c a in
  graph_manager a' = Some manager
  /\ sentinel_agent a' = None
  /\ forall events url now1 now2,
       (handle c (PostIngest url) now1 now2 (run c events a')).1
       = inl {| Api.status_code := 503; Api.detail := "Sentinel agent not initialized" |}.
Proof.
  intros Hnone Hmanager Hscraper a'.
  assert (Hagent1 : sentinel_agent a1 = None).
  { pose proof (keeps_get_graph_manager c a) as (H & _). rewrite Hmanager in H.
    simpl in H. congruence. }
  assert (Ha' : a' = with_backend b {| graph_manager := Some manager;
                                       sentinel_agent := sentinel_agent a1;
                                       world := world a1 |}).
  { unfold a', startup_event, mbind, call_bind. rewrite Hmanager.
    unfold set_graph_manager, component. simpl. by rewrite Hscraper. }
  assert (Hagent' : sentinel_agent a' = None) by (by rewrite Ha').
  split; [by rewrite Ha'|]. split; [exact Hagent'|].
  intros events url now1 now2.
  destruct (run_globals c events a') as (Hagent & _).
  rewrite Hagent' in Hagent.
  destruct (run c events a') as [m agent w]. simpl in Hagent. subst agent.
  by destruct w.
Qed.

Lemma startup_without_scraper_witness :
  let a' := startup_event no_scraper (initial 0 0) in
  graph_manager a' = Some tt
  /\ sentinel_agent a' = None
  /\ forall events url now1 now2,
       (handle no_scraper (PostIngest url) now1 now2 (run no_scraper events a')).1
       = inl {| Api.status_code := 503; Api.detail := "Sentinel agent not initialized" |}.
Proof.
  apply (startup_without_scraper no_scraper (initial 0 0) serving tt
           (OtherError "no scraper available") 0); reflexivity.
Defined.

(** X16: [POST /api/query] answers with the record of the query engine
    whenever the graph manager is there or can be made, whatever the
    graph does then: taking the length of the path for the log cannot
    fail. It answers with the HTTP error 500 only when the manager cannot
    be made. A timestamp, well formed or not, changes nothing. *)
Theorem query_graph_answers {B M S X D : Type} (c : Components B M S X D)
    (question : string) (timestamp : option string) (a : App B M) :
  match get_graph_manager c a with
  | (inl e, a1) =>
      query_graph c question timestamp a
      = (inl {| Api.status_code := 500; Api.detail := error_msg e |}, a1)
  | (inr manager, a1) =>
      let b := Api.backend (world a1) in
      query_graph c question timestamp a
      = (inr (QueryEngine.execute_query_with_path
                (fun cypher_query => (run_query c manager cypher_query b).1)
                question timestamp),
         with_backend
           (run_query c manager (QueryEngine.generate_cypher_from_question question) b).2
           a1)
  end
  /\ query_graph c question timestamp a = query_graph c question None a.
Proof.
  split; [|reflexivity].
  unfold query_graph.
  destruct (get_graph_manager c a) as [[e|manager] a1]; [reflexivity|]. cbv zeta.
  destruct (EngineProps.path_is_sized
              (fun cypher_query => (run_query c manager cypher_query
                                      (Api.backend (world a1))).1)
              question timestamp) as (path & n & Hpath & Hlen).
  unfold Api.dict_get. by rewrite Hpath, Hlen.
Qed.

(** X17: with the graph manager in place, [GET /api/graph-snapshot]
    answers a timestamp that [fromisoformat] refuses with the HTTP error
    400 and its message, without asking the graph for anything; an empty
    timestamp is taken as none. *)
Theorem snapshot_timestamp_errors {B M S X D : Type} (c : Components B M S X D)
    (t msg : string) (manager : M) (a : App B M) :
  graph_manager a = Some manager ->
  t <> EmptyString ->
  fromisoformat c (Py.replace "Z" "+00:00" t) = inl msg ->
  get_graph_snapshot c (Some t) a
  = (inl {| Api.status_code := 400;
            Api.detail := "Invalid timestamp format: " +:+ msg +:+
                          ". Use ISO 8601 format." |}, a)
  /\ get_graph_snapshot c (Some EmptyString) a = get_graph_snapshot c None a.
Proof.
  intros Hmanager Ht Hparse. split; [|reflexivity].
  unfold get_graph_snapshot, get_graph_manager, parse_timestamp.
  rewrite Hmanager, Hparse. by destruct t.
Qed.

Lemma snapshot_timestamp_errors_witness :
  get_graph_snapshot no_scraper (Some "yesterday") serving
  = (inl {| Api.status_code := 400;
            Api.detail := "Invalid timestamp format: Invalid isoformat string: 'yesterday'"
                          +:+ ". Use ISO 8601 format." |}, serving).
Proof.
  apply (snapshot_timestamp_errors no_scraper "yesterday"
           "Invalid isoformat string: 'yesterday'" tt serving); [reflexivity|done|].
  vm_compute. reflexivity.
Defined.

(** X18: when the snapshot of the graph is a dictionary without the key
    ["metadata"], [GET /api/stats] answers with the HTTP error 500 whose
    detail is the [repr] of the key, ['metadata'], after the graph was
    asked for the snapshot and for its stale URLs. *)
Theorem stats_without_metadata {B M S X D : Type} (c : Components B M S X D)
    (now : Z) (manager : M) (a : App B M) (d : list (string * Py.pyval))
    (stale_urls : Py.pyval) (b1 b2 : B) :
  graph_manager a = Some manager ->
  graph_snapshot c manager None (Api.backend (world a)) = (inr (Py.VDict d), b1) ->
  find_stale_nodes c manager 7 b1 = (inr stale_urls, b2) ->
  find_key d "metadata" = None ->
  get_stats c now a
  = (inl {| Api.status_code := 500; Api.detail := "'metadata'" |}, with_backend b2 a).
Proof.
  intros Hmanager Hsnapshot Hstale Hkey.
  unfold get_stats, mbind, call_bind, get_graph_manager, component.
  rewrite Hmanager, Hsnapshot. simpl. rewrite Hstale. simpl.
  unfold pure, py_getitem. by rewrite Hkey.
Qed.

Lemma stats_without_metadata_witness :
  get_stats no_scraper 9 serving
  = (inl {| Api.status_code := 500; Api.detail := "'metadata'" |},
     with_backend 0 serving).
Proof.
  apply (stats_without_metadata no_scraper 9 tt serving
           [("nodes", Py.VList []); ("links", Py.VList [])] (Py.VList []) 0 0);
    reflexivity.
Defined.


(** X20: [get_graph_manager] makes the graph manager once: a call that
    returns a manager leaves it in the global, and the next call returns
    the same one without touching the world outside; a call that raises
    found none and leaves none, so that the next call tries again. *)
Theorem graph_manager_is_made_once {B M S X D : Type} (c : Components B M S X D)
    (a : App B M) :
  match get_graph_manager c a with
  | (inr m, a') => graph_manager a' = Some m /\ get_graph_manager c a' = (inr m, a')
  | (inl e, a') => graph_manager a = None /\ graph_manager a' = None
  end.
Proof.
  unfold get_graph_manager at 1.
  destruct (graph_manager a) as [m|] eqn:Hm.
  - split; [done|]. unfold get_graph_manager. by rewrite Hm.
  - unfold mbind, call_bind, component.
    destruct (new_graph_manager c _) as [[e|m] b]; simpl; by split.
Qed.

End AppProps.
